(** * Pumpfessor Joe: schedule generator, workout builder and flashcard session

    A shallow embedding of [workout_calendar.py] and [workout_planner.py]
    together with the properties of their core logic.

    Conventions of the embedding.
    - A [datetime.date] is its day number (a [Z]); adding [timedelta(days=n)]
      is addition and [(a - b).days] is subtraction. Dates are taken to stay
      inside the range [datetime] supports.
    - Python exceptions ([ZeroDivisionError], [IndexError]) are [None] in the
      [option] monad.
    - [streamlit.session_state] is an explicit record passed in and out.
    - Python floats appearing in the planner are modelled by rationals; the
      draws of [random.uniform(-1, 1)] are an explicit argument. On the
      values [compute_num_exercises] meets (a base between 3 and 10 times
      0.8 or 1.2) truncating the rational and truncating the float agree.
    - The month navigation of the calendar reads dates through their year
      and month fields; there a date is the triple of its fields, ordered as
      Python orders dates, and [date(y, m, d)] fails outside the years 1 to
      9999.
    - [sort_values] is a merge sort on the score column; rows of equal score
      may come out of pandas in another order, and no property below depends
      on the order of such rows. *)

From Stdlib Require Import ZArith QArith Qround Qminmax Lia Lqa String Ascii.
From stdpp Require Import base option list gmap strings sorting.

Local Open Scope Z_scope.

(** ** Python helpers shared by both modules *)

(** A [for x in xs:] loop whose body updates the loop variables [st] and may
    raise. *)
Fixpoint for_each {A S : Type} (body : S → A → option S) (xs : list A) (st : S)
  : option S :=
  match xs with
  | [] => Some st
  | x :: xs' => st' ← body st x; for_each body xs' st'
  end.

(** [range(n)]: empty when [n] is not positive. *)
Definition range (n : Z) : list nat := seq 0 (Z.to_nat n).

(** [a % b] on non-negative operands; raises on a zero divisor. *)
Definition py_mod (a b : nat) : option nat :=
  if decide (b = 0%nat) then None else Some (a mod b)%nat.

(** [max(lo, min(hi, x))], the clamping idiom of both modules. *)
Definition clamp (x lo hi : Z) : Z := Z.max lo (Z.min hi x).

(** ** workout_calendar.py *)

Module Calendar.

Inductive Kind := Hypertrophy | Cardio | Rest.
Inductive symbol := H | C | R.

#[global] Instance Kind_eq_dec : EqDecision Kind.
Proof. solve_decision. Defined.
#[global] Instance symbol_eq_dec : EqDecision symbol.
Proof. solve_decision. Defined.

(** One schedule entry, the dict [{date, kind, label, done}]. *)
Record entry := Entry {
  date : Z;
  kind : Kind;
  label : string;
  done : bool
}.

#[global] Instance entry_eq_dec : EqDecision entry.
Proof. solve_decision. Defined.

(** The part of [session_state] the calendar logic reads and writes; a key
    that is absent is [None]. *)
Record session_state := State {
  plan : option (list entry);
  plan_start : option Z
}.


(** Lines 37-41 of [generate_schedule]: the clamped counts and the pattern
    [["H"] * h + ["C"] * c + ["R"] * r]. *)
Definition week_pattern (hyper_per_week cardio_per_week : Z) : list symbol :=
  let hyper_per_week := Z.max 0 (Z.min 7 hyper_per_week) in
  let cardio_per_week := Z.max 0 (Z.min (7 - hyper_per_week) cardio_per_week) in
  let rest_per_week := 7 - hyper_per_week - cardio_per_week in
  replicate (Z.to_nat hyper_per_week) H
    ++ replicate (Z.to_nat cardio_per_week) C
    ++ replicate (Z.to_nat rest_per_week) R.

(** The body of the [for offset in range(num_days)] loop; the loop
    variables are [schedule] and [label_idx]. *)
Definition schedule_body (split_labels : list string) (pattern : list symbol)
    (start_date : Z) (st : list entry * nat) (offset : nat)
  : option (list entry * nat) :=
  let '(schedule, label_idx) := st in
  let d := start_date + Z.of_nat offset in
  sym ← pattern !! (offset mod 7)%nat;
  match sym with
  | H =>
      i ← py_mod label_idx (length split_labels);
      lbl ← split_labels !! i;
      Some (schedule ++ [Entry d Hypertrophy lbl false], S label_idx)
  | C => Some (schedule ++ [Entry d Cardio "Cardio" false], label_idx)
  | R => Some (schedule ++ [Entry d Rest "Rest" false], label_idx)
  end.

Definition generate_schedule (split_labels : list string)
    (hyper_per_week cardio_per_week start_date num_days : Z)
  : option (list entry) :=
  fst <$> for_each
            (schedule_body split_labels
               (week_pattern hyper_per_week cardio_per_week) start_date)
            (range num_days) ([], 0%nat).

(** [today] stands for [date.today()]. *)
Definition extend_schedule_if_needed (split_labels : list string)
    (hyper_per_week cardio_per_week until_date today : Z)
    (state : session_state) : option session_state :=
  state ←
    match plan state with
    | Some (_ :: _) => Some state
    | _ =>
        p ← generate_schedule split_labels hyper_per_week cardio_per_week
               today 60;
        Some (State (Some p) (Some today))
    end;
  p ← plan state;
  last_entry ← last p;
  let last_day := date last_entry in
  if decide (last_day < until_date) then
    let extra_start := last_day + 1 in
    let extra_days := (until_date - extra_start) + 30 in
    extra ← generate_schedule split_labels hyper_per_week cardio_per_week
               extra_start extra_days;
    Some (State (Some (p ++ extra)) (plan_start state))
  else Some state.

(** Labels of the hypertrophy entries of a plan, in plan order. *)
Definition hyper_labels (p : list entry) : list string :=
  label <$> filter (λ e, kind e = Hypertrophy) p.

(** The rotation property as the specification words it: the [i]-th
    hypertrophy entry carries [split_labels[i mod len(split_labels)]]. *)
Definition rotation_ok (split_labels : list string) (p : list entry) : Prop :=
  ∀ (i : nat) (l : string),
    hyper_labels p !! i = Some l →
    split_labels !! (i mod length split_labels)%nat = Some l.

(** [xs.index(x)]: the position of the first element equal to [x];
    [ValueError] when there is none. *)
Definition py_index (xs : list entry) (x : entry) : option nat :=
  fst <$> list_find (λ y, y = x) xs.

(** [e["done"] = done] on one entry. *)
Definition set_done (done : bool) (e : entry) : entry :=
  Entry (date e) (kind e) (label e) done.

(** One run of [show_today_control]. [checkbox] is the value of the
    "I completed this workout" box and [save] tells whether the save button
    is pressed in this run. *)
Definition show_today_control (split_labels : list string)
    (hyper_days cardio_days today : Z) (checkbox save : bool)
    (state : session_state) : option session_state :=
  state ← extend_schedule_if_needed split_labels hyper_days cardio_days
             (today + 30) today state;
  p ← plan state;
  let todays_entries := filter (λ e, date e = today ∧ kind e ≠ Rest) p in
  match todays_entries with
  | [] => Some state
  | entry :: _ =>
      let done := checkbox in
      if save then
        idx ← py_index p entry;
        Some (State (Some (alter (set_done done) idx p)) (plan_start state))
      else Some state
  end.

(** The cell [show_calendar] draws for [day]: the icon and the label of the
    first plan entry of that date, if any (lines 188-198). *)
Definition calendar_cell (p : list entry) (day : Z) : string * string :=
  match list_find (λ e, date e = day) p with
  | Some (_, entry) =>
      if decide (kind entry = Rest) then ("⬜", "Rest")
      else (if done entry then "🟩" else "🟧", label entry)
  | None => ("", "")
  end.

(** A [datetime.date] seen through its fields, as the month navigation of
    [show_calendar] uses it. *)
Record ymd := Ymd { year : Z; month : Z; day : Z }.

Definition is_leap (y : Z) : bool :=
  (y mod 4 =? 0) && (negb (y mod 100 =? 0) || (y mod 400 =? 0)).

Definition days_in_month (y m : Z) : Z :=
  if decide (m = 2) then (if is_leap y then 29 else 28)
  else if decide (m = 4 ∨ m = 6 ∨ m = 9 ∨ m = 11) then 30
  else 31.

(** [date(y, m, d)]: [ValueError] outside years 1 to 9999, months 1 to 12
    and the days of the month. *)
Definition py_date (y m d : Z) : option ymd :=
  if decide (1 ≤ y ≤ 9999 ∧ 1 ≤ m ≤ 12 ∧ 1 ≤ d ≤ days_in_month y m)
  then Some (Ymd y m d) else None.

(** [a >= b] on dates: the order of the triples (year, month, day). *)
Definition ymd_ge (a b : ymd) : bool :=
  bool_decide (year b < year a
               ∨ (year b = year a
                  ∧ (month b < month a
                     ∨ (month b = month a ∧ day b ≤ day a)))).

(** The month shown by the calendar, [state.cal_year] and
    [state.cal_month]. *)
Record calendar_view := View { cal_year : Z; cal_month : Z }.

(** A run of [show_calendar] in which "Previous month" is pressed, as far as
    the shown month is concerned: line 123 builds the first day of the shown
    month, lines 135-147 handle the press. [plan_start] gives the fields of
    [state.plan_start]. *)
Definition previous_month_press (plan_start : ymd) (v : calendar_view)
  : option calendar_view :=
  first_of_month ← py_date (cal_year v) (cal_month v) 1;
  let pm := cal_month v - 1 in
  let py := cal_year v in
  let '(pm, py) := if decide (pm = 0) then (12, py - 1) else (pm, py) in
  earliest_month ← py_date (year plan_start) (month plan_start) 1;
  prev_month ← py_date py pm 1;
  if ymd_ge prev_month earliest_month then Some (View py pm) else Some v.

(** The same for "Next month" (lines 123 and 151-159). *)
Definition next_month_press (v : calendar_view) : option calendar_view :=
  first_of_month ← py_date (cal_year v) (cal_month v) 1;
  let nm := cal_month v + 1 in
  let ny := cal_year v in
  let '(nm, ny) := if decide (nm = 13) then (1, ny + 1) else (nm, ny) in
  Some (View ny nm).

End Calendar.

(** ** workout_planner.py *)

(** [round(x)] of Python 3: to the nearest integer, ties to the even one. *)
Definition py_round (x : Q) : Z :=
  let f := Qfloor x in
  match (x - inject_Z f ?= 1 # 2)%Q with
  | Lt => f
  | Gt => f + 1
  | Eq => if Z.even f then f else f + 1
  end.

(** [int(x)] of a float: truncation toward zero. *)
Definition py_int (x : Q) : Z :=
  if Qle_bool 0 x then Qfloor x else Qceiling x.

(** [xs[i]] with Python's negative indices; [IndexError] is [None]. *)
Definition py_getitem {A : Type} (xs : list A) (i : Z) : option A :=
  let n := Z.of_nat (length xs) in
  if decide (0 ≤ i) then xs !! Z.to_nat i
  else if decide (- n ≤ i) then xs !! Z.to_nat (n + i)
  else None.

(** [str.lower] on ASCII letters; other bytes are kept. *)
Definition lower_char (c : ascii) : ascii :=
  let n := N_of_ascii c in
  if ((65 <=? n) && (n <=? 90))%N then ascii_of_N (n + 32) else c.

Fixpoint lower (s : string) : string :=
  match s with
  | EmptyString => EmptyString
  | String c s' => String (lower_char c) (lower s')
  end.

(** [key in title] on strings: [key] occurs as a substring. *)
Fixpoint contains (key title : string) : bool :=
  String.prefix key title
  || match title with
     | EmptyString => false
     | String _ title' => contains key title'
     end.

Module Planner.

(** One catalog row of the DataFrame. The columns [Equipment Required] and
    [Link] may be absent, which [r.get(col, default)] allows for. *)
Record row := Row {
  Exercise : string;
  Muscle_Group : string;
  Equipment_Required : option string;
  Link : option string
}.

(** One element of the returned workout plan. *)
Record exercise := Ex {
  name : string;
  muscle : string;
  equipment : string;
  sets : Z;
  reps : string;
  rest : string;
  link : string
}.

#[global] Instance row_eq_dec : EqDecision row.
Proof. solve_decision. Defined.
#[global] Instance exercise_eq_dec : EqDecision exercise.
Proof. solve_decision. Defined.

Definition mapping : list (string * list string) :=
  [ ("push", ["Chest"; "Triceps"; "Shoulders"]);
    ("pull", ["Back"; "Biceps"]);
    ("legs", ["Legs"; "Quads"; "Hamstrings"; "Glutes"]);
    ("upper", ["Chest"; "Shoulders"; "Back"; "Arms"]);
    ("lower", ["Legs"; "Quads"; "Hamstrings"; "Glutes"]);
    ("arms", ["Biceps"; "Triceps"; "Forearms"]);
    ("chest", ["Chest"]);
    ("back", ["Back"]);
    ("shoulder", ["Shoulders"]);
    ("glute", ["Glutes"]);
    ("core", ["Abs"; "Core"]);
    ("abs", ["Abs"; "Core"]) ].

(** [found] is a Python set; [list(found)] lists it in some order, which
    only membership tests read afterwards. *)
Definition infer_muscles_from_title (title : string) (all_muscles : list string)
  : list string :=
  let title := lower title in
  let found : gset string :=
    foldl (λ found km,
             if contains km.1 title
             then found ∪ list_to_set (filter (λ m, m ∈ all_muscles) km.2)
             else found)
          ∅ mapping in
  if decide (found = ∅) then take 3 all_muscles else elements found.

Definition compute_num_exercises (minutes : Z) (intensity : string) : Z :=
  let base := Z.max 3 (Z.min 10 (py_round (inject_Z minutes / 8))) in
  if String.eqb intensity "Light" then
    Z.max 3 (py_int (inject_Z base * (8 # 10)))
  else if String.eqb intensity "Moderate" then base
  else Z.min 12 (py_int (inject_Z base * (12 # 10))).

(** [jitter] is the value drawn by [random.uniform(-1, 1)] in this call. *)
Definition score_exercise (r : row) (targets : list string)
    (soreness : gmap string Z) (intensity : string) (jitter : Q) : Q :=
  let mg := Muscle_Group r in
  let score := 0%Q in
  let score := if decide (mg ∈ targets) then (score + 6)%Q else score in
  let score := (score - inject_Z (default 0%Z (soreness !! mg)) * (16 # 10))%Q in
  let score := (score + jitter)%Q in
  score.

Definition sets_reps_rest (intensity : string) : Z * string * string :=
  if String.eqb intensity "Light" then (2, "12–15", "45–60 sec")
  else if String.eqb intensity "Moderate" then (3, "8–12", "60–90 sec")
  else (4, "6–10", "90–120 sec").

(** [sorted(df["Muscle Group"].unique())]: the distinct muscle groups in
    increasing string order. *)
Definition string_le (a b : string) : Prop := String.leb a b = true.

#[global] Instance string_le_dec : RelDecision string_le.
Proof. intros a b. unfold string_le. apply _. Defined.

Definition sorted_unique_muscles (df : list row) : list string :=
  merge_sort string_le (remove_dups (Muscle_Group <$> df)).

(** [[m for m, s in soreness.items() if s >= 8]]. *)
Definition very_sore (soreness : gmap string Z) : list string :=
  (filter (λ ms, 8 ≤ ms.2) (map_to_list soreness)).*1.

(** [df[~df["Muscle Group"].isin(very_sore)]]. *)
Definition drop_very_sore (soreness : gmap string Z) (df : list row) : list row :=
  filter (λ r, Muscle_Group r ∉ very_sore soreness) df.

(** [df.sort_values("score", ascending=False)] on rows paired with their
    score column. *)
Definition score_ge (a b : row * Q) : Prop := Qle_bool b.2 a.2 = true.

#[global] Instance score_ge_dec : RelDecision score_ge.
Proof. intros a b. unfold score_ge. apply _. Defined.

Definition sort_by_score (df : list (row * Q)) : list (row * Q) :=
  merge_sort score_ge df.

(** [jitter i] is the draw of [random.uniform(-1, 1)] made while scoring the
    [i]-th remaining row ([df.apply] visits the rows in order). *)
Definition build_workout_plan (df : list row) (title : string) (minutes : Z)
    (wishes : string) (soreness : gmap string Z) (intensity : string)
    (jitter : nat → Q) : list exercise :=
  let targets := infer_muscles_from_title title (sorted_unique_muscles df) in
  let df := drop_very_sore soreness df in
  match df with
  | [] => []
  | _ :: _ =>
      let df :=
        imap (λ i r, (r, score_exercise r targets soreness intensity (jitter i)))
             df in
      let df := sort_by_score df in
      let num := Z.min (compute_num_exercises minutes intensity)
                       (Z.of_nat (length df)) in
      let '(sets, reps, rest) := sets_reps_rest intensity in
      (λ rs : row * Q,
         let r := rs.1 in
         Ex (Exercise r) (Muscle_Group r)
            (default "–" (Equipment_Required r))
            sets reps rest
            (default "" (Link r)))
        <$> take (Z.to_nat num) df
  end.

(** The flashcard session kept in [session_state]. *)
Record session := Session {
  workout : list exercise;
  current_card : Z;
  finished : bool
}.

Inductive button := Previous | Next.

#[global] Instance button_eq_dec : EqDecision button.
Proof. solve_decision. Defined.

(** One run of [show_flashcards] in which the user presses [press] (at most
    one button is pressed per run). The previous button is rendered only
    when [idx > 0]. *)
Definition show_flashcards (press : option button) (state : session)
  : option session :=
  let exercises := workout state in
  let idx := current_card state in
  let total := Z.of_nat (length exercises) in
  ex ← py_getitem exercises idx;
  if decide (0 < idx ∧ press = Some Previous) then
    Some (Session exercises (current_card state - 1) (finished state))
  else if decide (press = Some Next) then
    let state' := Session exercises (current_card state + 1) (finished state) in
    if decide (total ≤ current_card state') then
      Some (Session exercises (current_card state') true)
    else Some state'
  else Some state.

(** The dispatch of [main] for an existing session: the flashcards, with
    their buttons, are shown only while the session is not finished. *)
Definition session_step (state : session) (press : button) : option session :=
  if finished state then Some state
  else show_flashcards (Some press) state.

(** The session [main] creates after a successful build. *)
Definition start_session (w : list exercise) : session := Session w 0 false.

Definition run_session (presses : list button) (state : session)
  : option session :=
  for_each session_step presses state.

(** The renaming of one (already stripped) column name in [load_exercises],
    lines 23-35: a column the loop does not match keeps its name. *)
Definition rename_column (c : string) : string :=
  let name := lower c in
  if String.prefix "exercise" name then "Exercise"
  else if String.prefix "equipment" name then "Equipment Required"
  else if String.prefix "muscle" name then "Muscle Group"
  else if String.prefix "link" name then "Link"
  else c.

(** What the user does in one run of the page. *)
Inductive event :=
| GenerateWorkout (df : list row) (title : string) (minutes : Z)
    (wishes : string) (soreness : gmap string Z) (intensity : string)
    (jitter : nat → Q)
| PressButton (b : button)
| BackToBuilder
| NoAction.

(** One run of [main] on the session kept in [session_state] ([None] when
    the keys are absent). A widget that the run does not render cannot be
    used, so its event changes nothing. *)
Definition main (state : option session) (ev : event)
  : option (option session) :=
  match state with
  | Some s =>
      if negb (finished s) then
        Some <$> show_flashcards
                   (match ev with PressButton b => Some b | _ => None end) s
      else
        match ev with
        | BackToBuilder => Some None
        | _ => Some (Some s)
        end
  | None =>
      match ev with
      | GenerateWorkout df title minutes wishes soreness intensity jitter =>
          let workout :=
            build_workout_plan df title minutes wishes soreness intensity
              jitter in
          match workout with
          | [] => Some None
          | _ :: _ => Some (Some (Session workout 0 false))
          end
      | _ => Some None
      end
  end.

End Planner.

(** ** Notions used to state the properties *)

(** Number of slots of a weekly pattern that hold the symbol [s]. *)
Definition count_symbol (s : Calendar.symbol) (p : list Calendar.symbol) : nat :=
  length (filter (λ x, x = s) p).

(** The exercise count as the specification words it, to be compared with
    [Planner.compute_num_exercises]: the base is
    [clamp(round(minutes/8), 3, 10)]; Light gives
    [clamp(round(base*0.8), 3, 12)], Moderate gives [base], and any other
    intensity gives [clamp(base*1.2, 3, 12)]. *)
Definition spec_num_exercises (minutes : Z) (intensity : string) : Q :=
  let base := clamp (py_round (inject_Z minutes / 8)) 3 10 in
  if String.eqb intensity "Light" then
    inject_Z (clamp (py_round (inject_Z base * (8 # 10))) 3 12)
  else if String.eqb intensity "Moderate" then inject_Z base
  else Qmax 3 (Qmin 12 (inject_Z base * (12 # 10))).

(** The plan length the specification derives from it: the minimum of that
    count and the number of rows left after the soreness filter. *)
Definition spec_plan_length (minutes : Z) (intensity : string) (remaining : nat)
  : Q :=
  Qmin (spec_num_exercises minutes intensity) (inject_Z (Z.of_nat remaining)).

(** The entry kind and the fixed label that go with a pattern symbol. *)
Definition kind_of_symbol (s : Calendar.symbol) : Calendar.Kind :=
  match s with
  | Calendar.H => Calendar.Hypertrophy
  | Calendar.C => Calendar.Cardio
  | Calendar.R => Calendar.Rest
  end.

(** The entry generated for the day at [offset] is what the weekly pattern
    asks for there. *)
Definition entry_follows (split_labels : list string)
    (pattern : list Calendar.symbol) (start_date : Z) (offset : nat)
    (e : Calendar.entry) : Prop :=
  Calendar.date e = start_date + Z.of_nat offset
  ∧ ∃ sym, pattern !! (offset mod 7)%nat = Some sym
           ∧ Calendar.kind e = kind_of_symbol sym
           ∧ match sym with
             | Calendar.H => Calendar.label e ∈ split_labels
             | Calendar.C => Calendar.label e = "Cardio"
             | Calendar.R => Calendar.label e = "Rest"
             end.

(** Number of entries of a plan that have the kind [k]. *)
Definition count_kind (k : Calendar.Kind) (p : list Calendar.entry) : nat :=
  length (filter (λ e, Calendar.kind e = k) p).

(** The dates of a plan are consecutive days. *)
Definition contiguous (p : list Calendar.entry) : Prop :=
  ∀ i e e', p !! i = Some e → p !! Datatypes.S i = Some e' →
            Calendar.date e' = Calendar.date e + 1.

(** The shown month is a real month and not before the month the plan
    starts in. *)
Definition view_ok (plan_start : Calendar.ymd) (v : Calendar.calendar_view)
  : Prop :=
  1 ≤ Calendar.cal_month v ≤ 12
  ∧ Calendar.cal_year v ≤ 9999
  ∧ (Calendar.year plan_start < Calendar.cal_year v
     ∨ (Calendar.year plan_start = Calendar.cal_year v
        ∧ Calendar.month plan_start ≤ Calendar.cal_month v)).

(** What [main] maintains about the flashcard session: a running session
    shows a card of its non-empty workout, a finished one stands just past
    the last card. *)
Definition session_ok (state : option Planner.session) : Prop :=
  match state with
  | None => True
  | Some s =>
      Planner.workout s ≠ []
      ∧ if Planner.finished s
        then Planner.current_card s = Z.of_nat (length (Planner.workout s))
        else 0 ≤ Planner.current_card s
                 < Z.of_nat (length (Planner.workout s))
  end.

(** The fields of a row that a plan entry copies. *)
Definition row_fields (r : Planner.row) : string * string * string * string :=
  (Planner.Exercise r, Planner.Muscle_Group r,
   default "–" (Planner.Equipment_Required r), default "" (Planner.Link r)).

Definition exercise_fields (ex : Planner.exercise)
  : string * string * string * string :=
  (Planner.name ex, Planner.muscle ex, Planner.equipment ex, Planner.link ex).

(** The muscle [m] is known and listed under a keyword that occurs in the
    lower-cased title. *)
Definition keyword_match (title : string) (all_muscles : list string)
    (m : string) : Prop :=
  m ∈ all_muscles
  ∧ ∃ km, km ∈ Planner.mapping
          ∧ contains km.1 (lower title) = true
          ∧ m ∈ km.2.

(** The plan entry made from a catalog row. *)
Definition plan_entry (intensity : string) (r : Planner.row) : Planner.exercise :=
  Planner.Ex (Planner.Exercise r) (Planner.Muscle_Group r)
    (default "–" (Planner.Equipment_Required r))
    (Planner.sets_reps_rest intensity).1.1
    (Planner.sets_reps_rest intensity).1.2
    (Planner.sets_reps_rest intensity).2
    (default "" (Planner.Link r)).

(** The filtered rows with their scores, in catalog order and ranked. *)
Definition scored_rows (df : list Planner.row) (title : string)
    (soreness : gmap string Z) (intensity : string) (jitter : nat → Q)
  : list (Planner.row * Q) :=
  imap (λ i r,
          (r, Planner.score_exercise r
                (Planner.infer_muscles_from_title title
                   (Planner.sorted_unique_muscles df))
                soreness intensity (jitter i)))
       (Planner.drop_very_sore soreness df).

Definition ranked_rows (df : list Planner.row) (title : string)
    (soreness : gmap string Z) (intensity : string) (jitter : nat → Q)
  : list (Planner.row * Q) :=
  Planner.sort_by_score (scored_rows df title soreness intensity jitter).

(** A five-week plan used in examples: the first 35 days generated for the
    Push / Pull split from 2024-01-01 (day 738886). *)
Definition sample_plan : list Calendar.entry :=
  default [] (Calendar.generate_schedule ["Push"; "Pull"] 3 1 738886 35).

(** A six-row catalog used in examples. *)
Definition sample_catalog : list Planner.row :=
  [ Planner.Row "Bench Press" "Chest" (Some "Barbell") (Some "http://example.org/bench");
    Planner.Row "Barbell Row" "Back" (Some "Barbell") None;
    Planner.Row "Squat" "Legs" (Some "Barbell") None;
    Planner.Row "Overhead Press" "Shoulders" None None;
    Planner.Row "Dips" "Triceps" None None;
    Planner.Row "Curl" "Biceps" (Some "Dumbbell") None ].

(** * Properties of the schedule generator *)

Section CalendarFacts.
Import Calendar.

Lemma count_symbol_app s p q :
  count_symbol s (p ++ q) = (count_symbol s p + count_symbol s q)%nat.
Proof. unfold count_symbol. by rewrite filter_app, length_app. Qed.

Lemma count_symbol_replicate s t n :
  count_symbol s (replicate n t) = if decide (t = s) then n else 0%nat.
Proof.
  unfold count_symbol. induction n as [|n IH]; simpl.
  - by case_decide.
  - rewrite filter_cons. destruct (decide (t = s)); simpl; by rewrite IH.
Qed.

Lemma week_pattern_length h c : length (week_pattern h c) = 7%nat.
Proof.
  unfold week_pattern. rewrite !length_app, !length_replicate. lia.
Qed.

Lemma filter_none {A : Type} (P : A → Prop) `{!∀ x, Decision (P x)} (l : list A) :
  Forall (λ x, ¬ P x) l → filter P l = [].
Proof.
  induction 1 as [|x l Hx _ IH]; [done|].
  by rewrite filter_cons, decide_False.
Qed.

Lemma for_each_cons {A S : Type} (body : S → A → option S) x xs st :
  for_each body (x :: xs) st = body st x ≫= for_each body xs.
Proof. reflexivity. Qed.

Lemma for_each_app {A S : Type} (body : S → A → option S) xs ys st :
  for_each body (xs ++ ys) st = for_each body xs st ≫= for_each body ys.
Proof.
  revert st. induction xs as [|x xs IH]; intros st; simpl; [done|].
  destruct (body st x) as [st'|]; simpl; [apply IH | done].
Qed.

Lemma hyper_labels_app p q :
  hyper_labels (p ++ q) = hyper_labels p ++ hyper_labels q.
Proof. unfold hyper_labels. by rewrite filter_app, fmap_app. Qed.

(** One iteration of the loop appends exactly one fresh entry for the day
    [start + offset]; the label counter moves only on a hypertrophy day. *)
Lemma schedule_body_spec labels pattern start sched idx o :
  labels ≠ [] → length pattern = 7%nat →
  ∃ e idx',
    schedule_body labels pattern start (sched, idx) o = Some (sched ++ [e], idx')
    ∧ date e = start + Z.of_nat o
    ∧ done e = false
    ∧ hyper_labels [e] = (if decide (kind e = Hypertrophy) then [label e] else [])
    ∧ (if decide (kind e = Hypertrophy)
       then labels !! (idx mod length labels)%nat = Some (label e) ∧ idx' = Datatypes.S idx
       else idx' = idx).
Proof.
  intros Hne Hlen. unfold schedule_body.
  destruct (pattern !! (o mod 7)%nat) as [sym|] eqn:Hsym; simpl.
  2:{ apply lookup_ge_None in Hsym.
      pose proof (Nat.mod_upper_bound o 7). lia. }
  destruct sym; simpl.
  - unfold py_mod. destruct (decide (length labels = 0%nat)) as [H0|H0].
    { destruct labels; [done | discriminate]. }
    simpl.
    destruct (labels !! (idx mod length labels)%nat) as [lbl|] eqn:Hl; simpl.
    2:{ apply lookup_ge_None in Hl.
        pose proof (Nat.mod_upper_bound idx (length labels) H0). lia. }
    eexists _, _. split; [reflexivity|]. simpl. by split_and!.
  - eexists _, _. split; [reflexivity|]. simpl. by split_and!.
  - eexists _, _. split; [reflexivity|]. simpl. by split_and!.
Qed.

(** The whole loop, started with any schedule and any label counter. *)
Lemma schedule_loop_spec labels pattern start offs :
  labels ≠ [] → length pattern = 7%nat →
  ∀ sched idx,
  ∃ seg,
    for_each (schedule_body labels pattern start) offs (sched, idx)
      = Some (sched ++ seg, (idx + length (hyper_labels seg))%nat)
    ∧ date <$> seg = (λ o, start + Z.of_nat o) <$> offs
    ∧ Forall (λ e, done e = false) seg
    ∧ (∀ i l, hyper_labels seg !! i = Some l →
              labels !! ((idx + i) mod length labels)%nat = Some l).
Proof.
  intros Hne Hlen. induction offs as [|o offs IH]; intros sched idx.
  - exists []. simpl. rewrite app_nil_r, Nat.add_0_r.
    split_and!; [done | done | constructor |].
    intros i l Hi. unfold hyper_labels in Hi. by rewrite filter_nil in Hi.
  - destruct (schedule_body_spec labels pattern start sched idx o Hne Hlen)
      as (e & idx' & Hbody & Hdate & Hdone & Hhl & Hidx).
    destruct (IH (sched ++ [e]) idx') as (seg & Hrun & Hdates & Hdones & Hrot).
    exists (e :: seg). rewrite for_each_cons, Hbody. simpl. rewrite Hrun.
    change (e :: seg) with ([e] ++ seg).
    rewrite hyper_labels_app, Hhl, length_app, <- app_assoc.
    destruct (decide (kind e = Hypertrophy)) as [Hk|Hk].
    + destruct Hidx as [Hlbl ->]. simpl.
      split_and!.
      * do 3 f_equal. lia.
      * f_equal; [exact Hdate | exact Hdates].
      * by constructor.
      * intros [|i] l Hi; simpl in Hi.
        -- injection Hi as <-. by rewrite Nat.add_0_r.
        -- apply Hrot in Hi.
           by replace (idx + Datatypes.S i)%nat with (Datatypes.S idx + i)%nat by lia.
    + subst idx'. simpl.
      split_and!; [done | f_equal; [exact Hdate | exact Hdates] | by constructor | done].
Qed.

(** What [generate_schedule] returns for a non-empty label list. *)
Lemma generate_schedule_spec labels h c start n :
  labels ≠ [] →
  ∃ p,
    generate_schedule labels h c start n = Some p
    ∧ date <$> p = (λ o, start + Z.of_nat o) <$> range n
    ∧ Forall (λ e, done e = false) p
    ∧ rotation_ok labels p.
Proof.
  intros Hne.
  destruct (schedule_loop_spec labels (week_pattern h c) start (range n) Hne
              (week_pattern_length h c) [] 0%nat)
    as (seg & Hrun & Hdates & Hdones & Hrot).
  exists seg. unfold generate_schedule. rewrite Hrun. simpl.
  split_and!; [done | done | done |]. intros i l Hi. by apply Hrot in Hi.
Qed.

Lemma dates_length start n (p : list entry) :
  date <$> p = (λ o, start + Z.of_nat o) <$> range n →
  length p = Z.to_nat n.
Proof.
  intros Hd. apply (f_equal length) in Hd.
  rewrite !length_fmap in Hd. unfold range in Hd. by rewrite length_seq in Hd.
Qed.

Lemma dates_lookup start n (p : list entry) i e :
  date <$> p = (λ o, start + Z.of_nat o) <$> range n →
  p !! i = Some e → date e = start + Z.of_nat i.
Proof.
  intros Hd Hi.
  assert (Hi' : (date <$> p) !! i = Some (date e)) by (by rewrite list_lookup_fmap, Hi).
  rewrite Hd, list_lookup_fmap in Hi'. unfold range in Hi'.
  destruct (seq 0 (Z.to_nat n) !! i) as [o|] eqn:Ho; [|done].
  apply lookup_seq in Ho as [-> _]. simpl in Hi'. by injection Hi' as ->.
Qed.

Lemma dates_last start n (p : list entry) :
  0 < n →
  date <$> p = (λ o, start + Z.of_nat o) <$> range n →
  ∃ e, last p = Some e ∧ date e = start + n - 1.
Proof.
  intros Hn Hd. pose proof (dates_length _ _ _ Hd) as Hlen.
  destruct (last p) as [e|] eqn:Hl.
  - exists e. split; [done|]. rewrite last_lookup in Hl.
    rewrite (dates_lookup _ _ _ _ _ Hd Hl). lia.
  - apply last_None in Hl. subst p. simpl in Hlen. lia.
Qed.

(** The extension branch of [extend_schedule_if_needed], for a state that
    already holds a non-empty plan ending before [until]. *)
Lemma extend_when_short labels h c until today p pstart last_e :
  labels ≠ [] → last p = Some last_e → date last_e < until →
  ∃ extra,
    extend_schedule_if_needed labels h c until today (State (Some p) pstart)
      = Some (State (Some (p ++ extra)) pstart)
    ∧ generate_schedule labels h c (date last_e + 1)
        (until - (date last_e + 1) + 30) = Some extra
    ∧ date <$> extra
        = (λ o, date last_e + 1 + Z.of_nat o)
            <$> range (until - (date last_e + 1) + 30)
    ∧ Forall (λ e, done e = false) extra
    ∧ rotation_ok labels extra.
Proof.
  intros Hne Hlast Hlt.
  destruct (generate_schedule_spec labels h c (date last_e + 1)
              (until - (date last_e + 1) + 30) Hne)
    as (extra & Hgen & Hdates & Hdones & Hrot).
  exists extra. split_and!; try done.
  unfold extend_schedule_if_needed.
  destruct p as [|e0 p']; [done|]. cbn [plan mbind option_bind].
  rewrite Hlast. cbn [mbind option_bind].
  rewrite decide_True by done. by rewrite Hgen.
Qed.

(** The other branch: a non-empty plan that already reaches [until] is
    returned as it is. *)
Lemma extend_when_covered labels h c until today p pstart last_e :
  last p = Some last_e → until ≤ date last_e →
  extend_schedule_if_needed labels h c until today (State (Some p) pstart)
    = Some (State (Some p) pstart).
Proof.
  intros Hlast Hge. unfold extend_schedule_if_needed.
  destruct p as [|e0 p']; [done|]. cbn [plan mbind option_bind].
  rewrite Hlast. cbn [mbind option_bind].
  by rewrite decide_False by lia.
Qed.

(** With no usable plan in the state, a 60-day plan starting today is
    created first. *)
Lemma extend_bootstrap labels h c until today st :
  labels ≠ [] → (plan st = None ∨ plan st = Some []) →
  ∃ p0 last_e,
    generate_schedule labels h c today 60 = Some p0
    ∧ last p0 = Some last_e ∧ date last_e = today + 59
    ∧ extend_schedule_if_needed labels h c until today st
      = extend_schedule_if_needed labels h c until today
          (State (Some p0) (Some today)).
Proof.
  intros Hne Hst.
  destruct (generate_schedule_spec labels h c today 60 Hne)
    as (p0 & Hgen & Hdates & _ & _).
  destruct (dates_last today 60 p0 ltac:(lia) Hdates) as (e & Hl & He).
  exists p0, e. split_and!; [done | done | lia |].
  unfold extend_schedule_if_needed at 1 2.
  destruct p0 as [|e0 p0']; [done|].
  destruct st as [pl ps]. simpl in Hst.
  destruct Hst as [-> | ->]; cbn [plan]; by rewrite Hgen.
Qed.

(** Both branches at once: a state with a non-empty plan is extended by some
    (possibly empty) segment of later days, after which the plan reaches
    [until]. *)
Lemma extend_from_plan labels h c until today p pstart last_e :
  labels ≠ [] → last p = Some last_e →
  ∃ extra last1,
    extend_schedule_if_needed labels h c until today (State (Some p) pstart)
      = Some (State (Some (p ++ extra)) pstart)
    ∧ last (p ++ extra) = Some last1
    ∧ until ≤ date last1
    ∧ Forall (λ e, date last_e < date e) extra.
Proof.
  intros Hne Hlast.
  destruct (decide (date last_e < until)) as [Hlt|Hge].
  - destruct (extend_when_short labels h c until today p pstart last_e
                Hne Hlast Hlt)
      as (extra & Hext & _ & Hdates & _ & _).
    destruct (dates_last (date last_e + 1) (until - (date last_e + 1) + 30)
                extra ltac:(lia) Hdates) as (e1 & Hl1 & Hd1).
    exists extra, e1. split_and!; [done | | lia |].
    + by rewrite last_app, Hl1.
    + apply Forall_lookup. intros i e Hi.
      rewrite (dates_lookup _ _ _ _ _ Hdates Hi). lia.
  - exists [], last_e. rewrite app_nil_r. split_and!; [ | done | lia | constructor].
    apply (extend_when_covered _ _ _ _ _ _ _ last_e); [done | lia].
Qed.

(** The scenario of the specification: four hypertrophy and two cardio days
    a week from 2024-01-01 (day 738886); the seventh day, 2024-01-07, is a
    rest day. *)
Example week_pattern_4_2 : week_pattern 4 2 = [H; H; H; H; C; C; R].
Proof. reflexivity. Qed.

Example first_week_ends_with_rest :
  generate_schedule ["Push"; "Pull"; "Legs"] 4 2 738886 7 ≫= (.!! 6%nat)
  = Some (Entry 738892 Rest "Rest" false).
Proof. vm_compute. reflexivity. Qed.

(** An empty label list makes the first hypertrophy day raise, and is
    harmless when no hypertrophy day is scheduled. *)
Example generate_schedule_no_labels :
  generate_schedule [] 4 2 738886 7 = None
  ∧ (length <$> generate_schedule [] 0 2 738886 7) = Some 7%nat.
Proof. split; vm_compute; reflexivity. Qed.

(** C3. For all requested frequencies [h] and [c], the weekly pattern has
    length 7, holds [clamp(h,0,7)] hypertrophy slots and
    [clamp(c,0,7-countH)] cardio slots, and the three counts add up to 7. *)
Theorem week_pattern_counts (h c : Z) :
  let countH := clamp h 0 7 in
  let countC := clamp c 0 (7 - countH) in
  let pattern := week_pattern h c in
  length pattern = 7%nat
  ∧ Z.of_nat (count_symbol H pattern) = countH
  ∧ Z.of_nat (count_symbol C pattern) = countC
  ∧ Z.of_nat (count_symbol H pattern) + Z.of_nat (count_symbol C pattern)
      + Z.of_nat (count_symbol R pattern) = 7.
Proof.
  cbv zeta. split; [apply week_pattern_length|].
  unfold week_pattern, clamp.
  rewrite !count_symbol_app, !count_symbol_replicate.
  repeat case_decide; try congruence. lia.
Qed.

(** C4. For a non-empty label list, [generate_schedule] returns a plan of
    exactly [num_days] entries (none when [num_days] is negative) whose
    [i]-th entry is dated [start_date + i], so the dates increase by exactly
    one day from entry to entry, and every entry has [done = false]. *)
Theorem generate_schedule_dates labels h c start_date num_days :
  labels ≠ [] →
  ∃ p,
    generate_schedule labels h c start_date num_days = Some p
    ∧ Z.of_nat (length p) = Z.max 0 num_days
    ∧ (∀ i e, p !! i = Some e →
              date e = start_date + Z.of_nat i ∧ done e = false)
    ∧ (∀ i e e', p !! i = Some e → p !! Datatypes.S i = Some e' →
                 date e' = date e + 1).
Proof.
  intros Hne.
  destruct (generate_schedule_spec labels h c start_date num_days Hne)
    as (p & Hgen & Hdates & Hdones & _).
  exists p. split_and!; [done | | |].
  - rewrite (dates_length _ _ _ Hdates). lia.
  - intros i e Hi. split; [by eapply dates_lookup|].
    rewrite Forall_lookup in Hdones. by eapply Hdones.
  - intros i e e' Hi Hi'.
    rewrite (dates_lookup _ _ _ _ _ Hdates Hi), (dates_lookup _ _ _ _ _ Hdates Hi').
    lia.
Qed.

Lemma generate_schedule_dates_witness :
  ["Push"; "Pull"; "Legs"] ≠ []
  ∧ ∃ p,
      generate_schedule ["Push"; "Pull"; "Legs"] 4 2 738886 60 = Some p
      ∧ Z.of_nat (length p) = Z.max 0 60
      ∧ (∀ i e, p !! i = Some e →
                date e = 738886 + Z.of_nat i ∧ done e = false)
      ∧ (∀ i e e', p !! i = Some e → p !! Datatypes.S i = Some e' →
                   date e' = date e + 1).
Proof.
  split; [discriminate|].
  apply (generate_schedule_dates ["Push"; "Pull"; "Legs"] 4 2 738886 60).
  discriminate.
Defined.

(** C5. When the plan's last date is before [until_date], the call appends
    the segment generated from the day after the last entry over
    [(until_date - extra_start) + 30] days: the new plan is the old plan,
    entry for entry, followed by that segment, whose [i]-th date is
    [extra_start + i]. *)
Theorem extend_appends_segment labels h c until_date today p pstart last_e :
  labels ≠ [] → last p = Some last_e → date last_e < until_date →
  let extra_start := date last_e + 1 in
  let extra_days := until_date - extra_start + 30 in
  ∃ extra,
    extend_schedule_if_needed labels h c until_date today (State (Some p) pstart)
      = Some (State (Some (p ++ extra)) pstart)
    ∧ generate_schedule labels h c extra_start extra_days = Some extra
    ∧ Z.of_nat (length extra) = extra_days
    ∧ (∀ i e, extra !! i = Some e → date e = extra_start + Z.of_nat i)
    ∧ (∀ i e, p !! i = Some e → (p ++ extra) !! i = Some e)
    ∧ take (length p) (p ++ extra) = p.
Proof.
  intros Hne Hlast Hlt extra_start extra_days.
  destruct (extend_when_short labels h c until_date today p pstart last_e
              Hne Hlast Hlt)
    as (extra & Hext & Hgen & Hdates & _ & _).
  exists extra. split_and!; [done | done | | | |].
  - rewrite (dates_length _ _ _ Hdates). subst extra_days extra_start. lia.
  - intros i e Hi. by eapply dates_lookup.
  - intros i e Hi. by apply lookup_app_l_Some.
  - by rewrite take_app_length.
Qed.

Lemma extend_appends_segment_witness :
  let p := [Entry 738886 Hypertrophy "Push" true; Entry 738887 Rest "Rest" false] in
  ["Push"; "Pull"] ≠ []
  ∧ last p = Some (Entry 738887 Rest "Rest" false)
  ∧ 738887 < 738890
  ∧ ∃ extra,
      extend_schedule_if_needed ["Push"; "Pull"] 3 1 738890 738900
        (State (Some p) (Some 738886))
        = Some (State (Some (p ++ extra)) (Some 738886))
      ∧ generate_schedule ["Push"; "Pull"] 3 1 738888 32 = Some extra
      ∧ Z.of_nat (length extra) = 32
      ∧ (∀ i e, extra !! i = Some e → date e = 738888 + Z.of_nat i)
      ∧ (∀ i e, p !! i = Some e → (p ++ extra) !! i = Some e)
      ∧ take (length p) (p ++ extra) = p.
Proof.
  cbv zeta. split; [discriminate|]. split; [reflexivity|]. split; [lia|].
  apply (extend_appends_segment ["Push"; "Pull"] 3 1 738890 738900
           [Entry 738886 Hypertrophy "Push" true; Entry 738887 Rest "Rest" false]
           (Some 738886) (Entry 738887 Rest "Rest" false));
    [discriminate | reflexivity | simpl; lia].
Defined.

(** C6. Extending twice to the same [until_date] is idempotent: the first
    call succeeds and the second call returns the state it is given
    unchanged (whatever day it runs on); the original plan is a prefix of
    the result, and the entries dated before the original last date are the
    same list, [done] flags included, before and after both calls. *)
Theorem extend_twice_idempotent labels h c until_date today today' st :
  labels ≠ [] →
  ∃ st1,
    extend_schedule_if_needed labels h c until_date today st = Some st1
    ∧ extend_schedule_if_needed labels h c until_date today' st1 = Some st1
    ∧ (∀ p last_e, plan st = Some p → last p = Some last_e →
         ∃ p1, plan st1 = Some p1
               ∧ p `prefix_of` p1
               ∧ filter (λ e, date e < date last_e) p1
                 = filter (λ e, date e < date last_e) p).
Proof.
  intros Hne.
  assert (Hmain : ∀ p pstart last_e, last p = Some last_e →
    ∃ st1,
      extend_schedule_if_needed labels h c until_date today
        (State (Some p) pstart) = Some st1
      ∧ extend_schedule_if_needed labels h c until_date today' st1 = Some st1
      ∧ ∃ p1, plan st1 = Some p1
              ∧ p `prefix_of` p1
              ∧ filter (λ e, date e < date last_e) p1
                = filter (λ e, date e < date last_e) p).
  { intros p pstart last_e Hlast.
    destruct (extend_from_plan labels h c until_date today p pstart last_e
                Hne Hlast)
      as (extra & last1 & Hext & Hlast1 & Hcov & Hlater).
    exists (State (Some (p ++ extra)) pstart). split_and!; [done | |].
    - by apply (extend_when_covered _ _ _ _ _ _ _ last1).
    - exists (p ++ extra). split_and!; [done | by apply prefix_app_r |].
      rewrite filter_app.
      assert (Hnone : filter (λ e, date e < date last_e) extra = []).
      { apply filter_none. eapply Forall_impl; [exact Hlater|].
        simpl. intros e He. lia. }
      by rewrite Hnone, app_nil_r. }
  destruct st as [[[|e0 p']|] pstart].
  - destruct (extend_bootstrap labels h c until_date today
                (State (Some []) pstart) Hne ltac:(by right))
      as (p0 & l0 & _ & Hl0 & _ & Heq).
    destruct (Hmain p0 (Some today) l0 Hl0) as (st1 & H1 & H2 & _).
    exists st1. rewrite Heq. split_and!; [done | done |].
    intros p last_e [= <-] Hl. done.
  - destruct (last (e0 :: p')) as [last_e|] eqn:Hlast.
    2:{ by apply last_None in Hlast. }
    destruct (Hmain (e0 :: p') pstart last_e Hlast) as (st1 & H1 & H2 & H3).
    exists st1. split_and!; [done | done |].
    intros p l [= <-] Hl. rewrite Hlast in Hl. by injection Hl as <-.
  - destruct (extend_bootstrap labels h c until_date today
                (State None pstart) Hne ltac:(by left))
      as (p0 & l0 & _ & Hl0 & _ & Heq).
    destruct (Hmain p0 (Some today) l0 Hl0) as (st1 & H1 & H2 & _).
    exists st1. rewrite Heq. split_and!; [done | done |].
    intros p last_e Hp. done.
Qed.

Lemma extend_twice_idempotent_witness :
  let st := State (Some [Entry 738886 Hypertrophy "Push" true;
                         Entry 738887 Rest "Rest" false]) (Some 738886) in
  ["Push"; "Pull"] ≠ []
  ∧ ∃ st1,
      extend_schedule_if_needed ["Push"; "Pull"] 3 1 738890 738900 st = Some st1
      ∧ extend_schedule_if_needed ["Push"; "Pull"] 3 1 738890 738901 st1 = Some st1
      ∧ (∀ p last_e, plan st = Some p → last p = Some last_e →
           ∃ p1, plan st1 = Some p1
                 ∧ p `prefix_of` p1
                 ∧ filter (λ e, date e < date last_e) p1
                   = filter (λ e, date e < date last_e) p).
Proof.
  cbv zeta. split; [discriminate|].
  apply (extend_twice_idempotent ["Push"; "Pull"] 3 1 738890 738900 738901).
  discriminate.
Defined.

(** C1, as the code has it. Every segment that [generate_schedule] produces
    rotates through the labels from the first one: its [i]-th hypertrophy
    entry is labelled [split_labels[i mod len(split_labels)]]. An extension
    appends such a segment, so in the extended plan the hypertrophy entry
    number [k + i], with [k] the number of hypertrophy entries of the plan
    before the call, is labelled [split_labels[i mod len(split_labels)]]:
    the counter starts again at the first label. *)
Theorem label_rotation_per_segment labels h c until_date today p pstart last_e :
  labels ≠ [] → last p = Some last_e → date last_e < until_date →
  (∀ start_date num_days, ∃ seg,
      generate_schedule labels h c start_date num_days = Some seg
      ∧ rotation_ok labels seg)
  ∧ ∃ p',
      extend_schedule_if_needed labels h c until_date today
        (State (Some p) pstart) = Some (State (Some p') pstart)
      ∧ take (length (hyper_labels p)) (hyper_labels p') = hyper_labels p
      ∧ ∀ i l,
          hyper_labels p' !! (length (hyper_labels p) + i)%nat = Some l →
          labels !! (i mod length labels)%nat = Some l.
Proof.
  intros Hne Hlast Hlt. split.
  - intros start_date num_days.
    destruct (generate_schedule_spec labels h c start_date num_days Hne)
      as (seg & Hgen & _ & _ & Hrot).
    by exists seg.
  - destruct (extend_when_short labels h c until_date today p pstart last_e
                Hne Hlast Hlt)
      as (extra & Hext & _ & _ & _ & Hrot).
    exists (p ++ extra). rewrite hyper_labels_app. split_and!; [done | |].
    + by rewrite take_app_length.
    + intros i l Hi. rewrite lookup_app_r in Hi by lia.
      apply Hrot. by replace i with (length (hyper_labels p) + i
                                     - length (hyper_labels p))%nat at 1 by lia.
Qed.

Lemma label_rotation_per_segment_witness :
  let p := [Entry 738886 Hypertrophy "Push" true; Entry 738887 Rest "Rest" false] in
  ["Push"; "Pull"] ≠ []
  ∧ last p = Some (Entry 738887 Rest "Rest" false)
  ∧ 738887 < 738890
  ∧ (∀ start_date num_days, ∃ seg,
        generate_schedule ["Push"; "Pull"] 3 1 start_date num_days = Some seg
        ∧ rotation_ok ["Push"; "Pull"] seg)
  ∧ ∃ p',
      extend_schedule_if_needed ["Push"; "Pull"] 3 1 738890 738900
        (State (Some p) (Some 738886)) = Some (State (Some p') (Some 738886))
      ∧ take (length (hyper_labels p)) (hyper_labels p') = hyper_labels p
      ∧ ∀ i l,
          hyper_labels p' !! (length (hyper_labels p) + i)%nat = Some l →
          ["Push"; "Pull"] !! (i mod length ["Push"; "Pull"])%nat = Some l.
Proof.
  cbv zeta. split; [discriminate|]. split; [reflexivity|]. split; [lia|].
  apply (label_rotation_per_segment ["Push"; "Pull"] 3 1 738890 738900
           [Entry 738886 Hypertrophy "Push" true; Entry 738887 Rest "Rest" false]
           (Some 738886) (Entry 738887 Rest "Rest" false));
    [discriminate | reflexivity | simpl; lia].
Defined.

(** C1 fails as stated. One hypertrophy day a week with the labels Push and
    Pull: the 60-day plan created on 2024-01-01 holds nine hypertrophy
    entries, the last one labelled Push; extending it to day 70 appends a
    segment whose first hypertrophy entry, number 9 of the plan, is labelled
    Push again where the rotation over the whole plan asks for Pull. *)
Lemma label_rotation_restarts_on_extension :
  let labels := ["Push"; "Pull"] in
  let today := 738886 in
  ∃ st1 st2 p,
    extend_schedule_if_needed labels 1 0 (today + 30) today (State None None)
      = Some st1
    ∧ extend_schedule_if_needed labels 1 0 (today + 70) today st1 = Some st2
    ∧ plan st2 = Some p
    ∧ hyper_labels p !! 9%nat = Some "Push"
    ∧ labels !! (9 mod length labels)%nat = Some "Pull"
    ∧ ¬ rotation_ok labels p.
Proof.
  cbv zeta. eexists _, _, _.
  split; [vm_compute; reflexivity|].
  split; [vm_compute; reflexivity|].
  split; [reflexivity|].
  split; [vm_compute; reflexivity|].
  split; [reflexivity|].
  intros Hrot. specialize (Hrot 9%nat "Push" ltac:(vm_compute; reflexivity)).
  vm_compute in Hrot. discriminate Hrot.
Qed.

End CalendarFacts.

(** * Properties of the workout builder *)

Section PlannerFacts.
Import Planner.

(** A muscle group is filtered out exactly when the soreness map rates it 8
    or more. *)
Lemma elem_of_very_sore (soreness : gmap string Z) (m : string) :
  m ∈ very_sore soreness ↔ ∃ s, soreness !! m = Some s ∧ 8 ≤ s.
Proof.
  unfold very_sore. rewrite list_elem_of_fmap. split.
  - intros ([m' s] & -> & Hin). apply list_elem_of_filter in Hin as [Hs Hin].
    apply elem_of_map_to_list in Hin. by exists s.
  - intros (s & Hs & Hge). exists (m, s). split; [done|].
    apply list_elem_of_filter. split; [done|]. by apply elem_of_map_to_list.
Qed.

Lemma drop_very_sore_all (soreness : gmap string Z) (df : list row) :
  Forall (λ r, ∃ s, soreness !! Muscle_Group r = Some s ∧ 8 ≤ s) df →
  drop_very_sore soreness df = [].
Proof.
  intros Hall. unfold drop_very_sore. apply filter_none.
  eapply Forall_impl; [exact Hall|]. simpl. intros r Hr Hnot.
  apply Hnot. by apply elem_of_very_sore.
Qed.

(** The shape of a non-empty result: the top rows of the sorted, scored,
    filtered catalog, each turned into an exercise. *)
Lemma build_workout_plan_rows df title minutes wishes soreness intensity jitter ex :
  ex ∈ build_workout_plan df title minutes wishes soreness intensity jitter →
  ∃ r, r ∈ drop_very_sore soreness df
       ∧ name ex = Exercise r ∧ muscle ex = Muscle_Group r.
Proof.
  unfold build_workout_plan.
  destruct (drop_very_sore soreness df) as [|r0 df'] eqn:Hdf.
  { intros Hin. by apply elem_of_nil in Hin. }
  destruct (sets_reps_rest intensity) as [[sets reps] rest].
  intros Hin. apply list_elem_of_fmap in Hin as ([r q] & -> & Hin).
  apply elem_of_take in Hin as (i & Hi & _).
  apply list_elem_of_lookup_2 in Hi.
  unfold sort_by_score in Hi. rewrite merge_sort_Permutation in Hi.
  apply elem_of_lookup_imap_1 in Hi as (j & r' & Heq & Hj).
  injection Heq as -> _. exists r'. split; [|done].
  by apply list_elem_of_lookup_2 in Hj.
Qed.

Lemma compute_num_exercises_closed minutes intensity :
  let base := clamp (py_round (inject_Z minutes / 8)) 3 10 in
  compute_num_exercises minutes intensity
  = if String.eqb intensity "Light" then Z.max 3 (base * 8 / 10)
    else if String.eqb intensity "Moderate" then base
    else Z.min 12 (base * 12 / 10).
Proof.
  cbv zeta. unfold compute_num_exercises, clamp.
  set (base := Z.max 3 (Z.min 10 (py_round (inject_Z minutes / 8)))).
  assert (Hb : base = 3 ∨ base = 4 ∨ base = 5 ∨ base = 6 ∨ base = 7
               ∨ base = 8 ∨ base = 9 ∨ base = 10) by lia.
  clearbody base.
  destruct (String.eqb intensity "Light"); [|destruct (String.eqb intensity "Moderate")];
    [ | done | ];
    by repeat (destruct Hb as [-> | Hb]; [done|]); subst base.
Qed.

Lemma compute_num_exercises_bounds minutes intensity :
  3 ≤ compute_num_exercises minutes intensity ≤ 12.
Proof.
  rewrite compute_num_exercises_closed. cbv zeta. unfold clamp.
  set (base := Z.max 3 (Z.min 10 (py_round (inject_Z minutes / 8)))).
  assert (Hb : 3 ≤ base ≤ 10) by lia. clearbody base.
  assert (3 ≤ base * 12 / 10).
  { apply Z.div_le_lower_bound; lia. }
  assert (base * 8 / 10 ≤ 8).
  { apply Z.div_le_upper_bound; lia. }
  repeat case_match; lia.
Qed.

Lemma build_workout_plan_length df title minutes wishes soreness intensity jitter :
  Z.of_nat (length (build_workout_plan df title minutes wishes soreness
                      intensity jitter))
  = Z.min (compute_num_exercises minutes intensity)
          (Z.of_nat (length (drop_very_sore soreness df))).
Proof.
  pose proof (compute_num_exercises_bounds minutes intensity) as Hb.
  unfold build_workout_plan.
  destruct (drop_very_sore soreness df) as [|r0 df'] eqn:Hdf.
  { simpl. lia. }
  destruct (sets_reps_rest intensity) as [[sets reps] rest].
  rewrite length_fmap, length_take.
  unfold sort_by_score. rewrite merge_sort_Permutation, length_imap. lia.
Qed.

(** A press on a card inside the plan: what one run of the page does. *)
Lemma session_step_next w i :
  0 ≤ i < Z.of_nat (length w) →
  session_step (Session w i false) Next
  = Some (Session w (i + 1) (bool_decide (Z.of_nat (length w) ≤ i + 1))).
Proof.
  intros Hi. unfold session_step, show_flashcards, py_getitem. simpl.
  destruct (decide (0 ≤ i)) as [_|?]; [|lia].
  destruct (w !! Z.to_nat i) as [ex|] eqn:Hex.
  2:{ apply lookup_ge_None in Hex. lia. }
  simpl.
  destruct (decide (0 < i ∧ Some Next = Some Previous)) as [[_ ?]|_];
    [discriminate|].
  destruct (decide (Z.of_nat (length w) ≤ i + 1)) as [Hge|Hlt].
  - by rewrite bool_decide_eq_true_2.
  - by rewrite bool_decide_eq_false_2.
Qed.

Lemma session_step_previous w i :
  0 ≤ i < Z.of_nat (length w) →
  session_step (Session w i false) Previous
  = Some (Session w (if decide (0 < i) then i - 1 else i) false).
Proof.
  intros Hi. unfold session_step, show_flashcards, py_getitem. simpl.
  destruct (decide (0 ≤ i)) as [_|?]; [|lia].
  destruct (w !! Z.to_nat i) as [ex|] eqn:Hex.
  2:{ apply lookup_ge_None in Hex. lia. }
  simpl.
  destruct (decide (0 < i ∧ Some Previous = Some Previous)) as [[Hpos _]|Hzero].
  - by rewrite decide_True.
  - rewrite decide_False by (intros ?; by apply Hzero). done.
Qed.

(** Pressing next on every card from card [i] on finishes the session. *)
Lemma run_next_to_end w k :
  ∀ i, 0 ≤ i → (0 < k)%nat → i + Z.of_nat k = Z.of_nat (length w) →
  run_session (replicate k Next) (Session w i false)
  = Some (Session w (Z.of_nat (length w)) true).
Proof.
  unfold run_session.
  induction k as [|k IH]; intros i Hi Hk Hsum; [lia|].
  cbn [replicate]. rewrite for_each_cons, session_step_next by lia.
  cbn [mbind option_bind].
  destruct (decide (k = 0%nat)) as [->|Hk'].
  - rewrite bool_decide_eq_true_2 by lia. simpl. do 2 f_equal. lia.
  - rewrite bool_decide_eq_false_2 by lia. apply IH; lia.
Qed.

(** Fewer presses than there are cards left cannot finish the session, and
    every one of them is handled without an error. *)
Lemma run_short_not_finished w presses :
  ∀ i, 0 ≤ i → i + Z.of_nat (length presses) < Z.of_nat (length w) →
  ∃ j, run_session presses (Session w i false) = Some (Session w j false)
       ∧ 0 ≤ j ≤ i + Z.of_nat (length presses).
Proof.
  unfold run_session.
  induction presses as [|b presses IH]; intros i Hi Hlen.
  - exists i. simpl. split; [done | lia].
  - cbn [length] in Hlen. rewrite for_each_cons. destruct b.
    + rewrite session_step_previous by lia. cbn [mbind option_bind].
      destruct (IH (if decide (0 < i) then i - 1 else i)) as (j & Hrun & Hj);
        [case_decide; lia | case_decide; lia |].
      exists j. split; [done|]. cbn [length]. case_decide; lia.
    + rewrite session_step_next by lia. cbn [mbind option_bind].
      rewrite bool_decide_eq_false_2 by lia.
      destruct (IH (i + 1)) as (j & Hrun & Hj); [lia | lia |].
      exists j. split; [done|]. cbn [length]. lia.
Qed.

(** The scenario of the specification: four rows (Chest, Back, Legs,
    Shoulders), Chest rated 9, title Push Day, 45 minutes, Moderate: six
    exercises are asked for and the three rows left are returned. The draws
    0, -0.1 and -0.2 keep the three scores apart. *)
Example push_day_scenario :
  let df := [Row "Bench Press" "Chest" None None; Row "Barbell Row" "Back" None None;
             Row "Squat" "Legs" None None; Row "Overhead Press" "Shoulders" None None] in
  compute_num_exercises 45 "Moderate" = 6
  ∧ infer_muscles_from_title "Push Day" (sorted_unique_muscles df)
      ≡ₚ ["Chest"; "Shoulders"]
  ∧ muscle <$> build_workout_plan df "Push Day" 45 "" {[ "Chest" := 9 ]}
                 "Moderate" (λ i, (- Z.of_nat i # 10)%Q)
    = ["Shoulders"; "Back"; "Legs"].
Proof.
  cbv zeta. split_and!; [reflexivity | | vm_compute; reflexivity].
  vm_compute. apply perm_swap.
Qed.

(** The counts for the slider values 15 to 120 at the three intensities agree
    with the Python floats: 45 minutes give 4, 6 and 7. *)
Example counts_for_45_minutes :
  (compute_num_exercises 45 "Light", compute_num_exercises 45 "Moderate",
   compute_num_exercises 45 "Max effort") = (4, 6, 7).
Proof. reflexivity. Qed.

(** C2. No exercise of the returned plan belongs to a muscle group whose
    soreness is 8 or more: every exercise comes from a row that survived the
    soreness filter, and that filter, applied before any score is computed,
    keeps no row of such a muscle group. *)
Theorem no_very_sore_exercise df title minutes wishes soreness intensity jitter :
  Forall (λ ex, (¬ ∃ s, soreness !! muscle ex = Some s ∧ 8 ≤ s)
                ∧ ∃ r, r ∈ drop_very_sore soreness df
                       ∧ name ex = Exercise r ∧ muscle ex = Muscle_Group r)
         (build_workout_plan df title minutes wishes soreness intensity jitter)
  ∧ Forall (λ r, ¬ ∃ s, soreness !! Muscle_Group r = Some s ∧ 8 ≤ s)
           (drop_very_sore soreness df).
Proof.
  assert (Hkept : ∀ r, r ∈ drop_very_sore soreness df →
                       ¬ ∃ s, soreness !! Muscle_Group r = Some s ∧ 8 ≤ s).
  { intros r Hr Hs. unfold drop_very_sore in Hr.
    apply list_elem_of_filter in Hr as [Hnot _].
    apply Hnot. by apply elem_of_very_sore. }
  split; apply Forall_forall.
  - intros ex Hex.
    destruct (build_workout_plan_rows _ _ _ _ _ _ _ _ Hex) as (r & Hr & Hn & Hm).
    split; [|by exists r]. rewrite Hm. by apply Hkept.
  - exact Hkept.
Qed.

(** C7 fails as stated. With 45 minutes the base is 6; for Light the code
    truncates 6 * 0.8 = 4.8 to 4 where the claim rounds it to 5, so a
    six-row catalog gives a plan of 4 exercises, not 5. For the third
    intensity with 24 minutes the base is 3 and the code truncates 3.6 to
    3. *)
Lemma light_count_is_truncated :
  length (drop_very_sore ∅ sample_catalog) = 6%nat
  ∧ compute_num_exercises 45 "Light" = 4
  ∧ (spec_num_exercises 45 "Light" == 5)%Q
  ∧ length (build_workout_plan sample_catalog "Push Day" 45 "" ∅ "Light"
              (λ _, 0%Q)) = 4%nat
  ∧ ¬ (inject_Z (Z.of_nat
         (length (build_workout_plan sample_catalog "Push Day" 45 "" ∅ "Light"
                    (λ _, 0%Q))))
       == spec_plan_length 45 "Light" 6)%Q
  ∧ ¬ (inject_Z (compute_num_exercises 24 "Max effort")
       == spec_num_exercises 24 "Max effort")%Q.
Proof.
  split_and!; try (vm_compute; reflexivity).
  - vm_compute. discriminate.
  - vm_compute. discriminate.
Qed.

(** C7, as the code has it. The base is [clamp(round(minutes/8), 3, 10)];
    Light gives [clamp(floor(base*0.8), 3, 12)], Moderate gives the base and
    any other intensity gives [clamp(floor(base*1.2), 3, 12)]; the plan has
    the minimum of that count and the number of rows left after the
    soreness filter. 15 minutes at Light give 3 and 120 minutes at maximum
    effort give 12. *)
Theorem plan_length_formula df title minutes wishes soreness intensity jitter :
  let base := clamp (py_round (inject_Z minutes / 8)) 3 10 in
  let count :=
    if String.eqb intensity "Light" then clamp (base * 8 / 10) 3 12
    else if String.eqb intensity "Moderate" then base
    else clamp (base * 12 / 10) 3 12 in
  compute_num_exercises minutes intensity = count
  ∧ Z.of_nat (length (build_workout_plan df title minutes wishes soreness
                        intensity jitter))
    = Z.min count (Z.of_nat (length (drop_very_sore soreness df)))
  ∧ compute_num_exercises 15 "Light" = 3
  ∧ compute_num_exercises 120 "Max effort" = 12.
Proof.
  cbv zeta.
  assert (Hcount : compute_num_exercises minutes intensity
    = if String.eqb intensity "Light"
      then clamp (clamp (py_round (inject_Z minutes / 8)) 3 10 * 8 / 10) 3 12
      else if String.eqb intensity "Moderate"
      then clamp (py_round (inject_Z minutes / 8)) 3 10
      else clamp (clamp (py_round (inject_Z minutes / 8)) 3 10 * 12 / 10) 3 12).
  { rewrite compute_num_exercises_closed. cbv zeta. unfold clamp.
    set (base := Z.max 3 (Z.min 10 (py_round (inject_Z minutes / 8)))).
    assert (Hb : 3 ≤ base ≤ 10) by lia. clearbody base.
    assert (3 ≤ base * 12 / 10) by (apply Z.div_le_lower_bound; lia).
    assert (base * 8 / 10 ≤ 8) by (apply Z.div_le_upper_bound; lia).
    repeat case_match; lia. }
  split_and!; [done | | done | done].
  rewrite <- Hcount. apply build_workout_plan_length.
Qed.

(** C9. When every row of the catalog belongs to a muscle group rated 8 or
    more (in particular when the catalog has no row at all), the builder
    returns the empty plan. *)
Theorem empty_scorable_catalog df title minutes wishes soreness intensity jitter :
  Forall (λ r, ∃ s, soreness !! Muscle_Group r = Some s ∧ 8 ≤ s) df →
  build_workout_plan df title minutes wishes soreness intensity jitter = [].
Proof.
  intros Hall. unfold build_workout_plan.
  by rewrite (drop_very_sore_all soreness df Hall).
Qed.

Lemma empty_scorable_catalog_witness :
  let df := [Row "Bench Press" "Chest" None None; Row "Dips" "Chest" None None] in
  let soreness : gmap string Z := {[ "Chest" := 9 ]} in
  Forall (λ r, ∃ s, soreness !! Muscle_Group r = Some s ∧ 8 ≤ s) df
  ∧ build_workout_plan df "Push Day" 45 "" soreness "Moderate" (λ _, 0%Q) = [].
Proof.
  cbv zeta.
  assert (Hall : Forall (λ r, ∃ s, ({[ "Chest" := 9 ]} : gmap string Z)
                                     !! Muscle_Group r = Some s ∧ 8 ≤ s)
                   [Row "Bench Press" "Chest" None None;
                    Row "Dips" "Chest" None None]).
  { repeat constructor; exists 9; (split; [reflexivity | lia]). }
  split; [exact Hall|].
  exact (empty_scorable_catalog _ "Push Day" 45 "" _ "Moderate" (λ _, 0%Q) Hall).
Defined.

(** C10. The [wishes] argument does not influence the result: two runs that
    differ only in it, with the same jitter draws, return the same plan. *)
Theorem wishes_have_no_influence df title minutes wishes1 wishes2 soreness
    intensity jitter :
  build_workout_plan df title minutes wishes1 soreness intensity jitter
  = build_workout_plan df title minutes wishes2 soreness intensity jitter.
Proof. reflexivity. Qed.

(** C8. For a session over a non-empty plan of [N] exercises started at
    card 0: [N] presses of next finish it; every sequence of fewer than [N]
    presses of next and previous is handled and leaves it unfinished; and a
    press of previous at card 0 returns the state unchanged. *)
Theorem session_needs_N_next (w : list exercise) :
  w ≠ [] →
  (∃ s, run_session (replicate (length w) Next) (start_session w) = Some s
        ∧ finished s = true)
  ∧ (∀ presses, (length presses < length w)%nat →
       ∃ s, run_session presses (start_session w) = Some s
            ∧ finished s = false)
  ∧ (∀ fin, session_step (Session w 0 fin) Previous = Some (Session w 0 fin)).
Proof.
  intros Hne.
  assert (Hlen : (0 < length w)%nat) by (destruct w; [done | simpl; lia]).
  split_and!.
  - eexists. split; [apply run_next_to_end; lia | done].
  - intros presses Hshort.
    destruct (run_short_not_finished w presses 0) as (j & Hrun & _); [lia | lia |].
    by exists (Session w j false).
  - intros [|]; [done|].
    rewrite session_step_previous by lia. by rewrite decide_False by lia.
Qed.

Lemma session_needs_N_next_witness :
  let w := build_workout_plan sample_catalog "Push Day" 45 "" ∅ "Light" (λ _, 0%Q) in
  w ≠ []
  ∧ (∃ s, run_session (replicate (length w) Next) (start_session w) = Some s
          ∧ finished s = true)
  ∧ (∀ presses, (length presses < length w)%nat →
       ∃ s, run_session presses (start_session w) = Some s
            ∧ finished s = false)
  ∧ (∀ fin, session_step (Session w 0 fin) Previous = Some (Session w 0 fin)).
Proof.
  cbv zeta.
  assert (Hne : build_workout_plan sample_catalog "Push Day" 45 "" ∅ "Light"
                  (λ _, 0%Q) ≠ []).
  { vm_compute. discriminate. }
  split; [exact Hne|].
  exact (session_needs_N_next _ Hne).
Defined.

End PlannerFacts.

(** * Further properties of the schedule generator and its callers *)

Section CalendarMore.
Import Calendar.


Lemma schedule_body_follows labels pattern start sched idx o res idx' :
  schedule_body labels pattern start (sched, idx) o = Some (res, idx') →
  ∃ e, res = sched ++ [e] ∧ entry_follows labels pattern start o e.
Proof.
  unfold schedule_body, entry_follows. intros Hbody.
  destruct (pattern !! (o mod 7)%nat) as [sym|] eqn:Hsym; [|done].
  simpl in Hbody. destruct sym.
  - destruct (py_mod idx (length labels)) as [i|]; [|done]. simpl in Hbody.
    destruct (labels !! i) as [lbl|] eqn:Hlbl; [|done]. simpl in Hbody.
    injection Hbody as <- <-. eexists. split; [done|]. simpl.
    split; [done|]. exists H. split_and!; [done | done |].
    by eapply list_elem_of_lookup_2.
  - injection Hbody as <- <-. eexists. split; [done|]. simpl.
    split; [done|]. by exists C.
  - injection Hbody as <- <-. eexists. split; [done|]. simpl.
    split; [done|]. by exists R.
Qed.

Lemma schedule_loop_follows labels pattern start offs :
  ∀ sched idx res idx',
    for_each (schedule_body labels pattern start) offs (sched, idx)
      = Some (res, idx') →
    ∃ seg, res = sched ++ seg
           ∧ Forall2 (entry_follows labels pattern start) offs seg.
Proof.
  induction offs as [|o offs IH]; intros sched idx res idx' Hrun.
  - injection Hrun as <- <-. exists []. by rewrite app_nil_r.
  - rewrite for_each_cons in Hrun.
    destruct (schedule_body labels pattern start (sched, idx) o)
      as [[sched1 idx1]|] eqn:Hbody; [|done].
    simpl in Hrun.
    apply schedule_body_follows in Hbody as (e & -> & He).
    apply IH in Hrun as (seg & -> & Hseg).
    exists (e :: seg). rewrite <- app_assoc. split; [done|]. by constructor.
Qed.

Lemma generate_schedule_follows labels h c start n p :
  generate_schedule labels h c start n = Some p →
  Forall2 (entry_follows labels (week_pattern h c) start) (range n) p.
Proof.
  unfold generate_schedule. intros Hgen.
  destruct (for_each _ _ _) as [[res idx']|] eqn:Hrun; [|done].
  injection Hgen as <-.
  by apply schedule_loop_follows in Hrun as (seg & -> & Hseg).
Qed.

Lemma lookup_range n i o : range n !! i = Some o → o = i.
Proof. unfold range. intros Ho. by apply lookup_seq in Ho as [-> _]. Qed.


(** X2. The kind of every generated entry is the one the weekly pattern
    holds at its position modulo 7; cardio and rest entries carry their fixed
    labels and a hypertrophy entry one of the split labels. *)
Theorem schedule_follows_week_pattern labels h c start_date num_days :
  labels ≠ [] →
  ∃ p,
    generate_schedule labels h c start_date num_days = Some p
    ∧ ∀ i e, p !! i = Some e →
        ∃ sym, week_pattern h c !! (i mod 7)%nat = Some sym
               ∧ kind e = kind_of_symbol sym
               ∧ match sym with
                 | H => label e ∈ labels
                 | C => label e = "Cardio"
                 | R => label e = "Rest"
                 end.
Proof.
  intros Hne.
  destruct (generate_schedule_spec labels h c start_date num_days Hne)
    as (p & Hgen & _).
  exists p. split; [done|]. intros i e Hi.
  apply generate_schedule_follows in Hgen.
  destruct (Forall2_lookup_r _ _ _ _ _ Hgen Hi) as (o & Ho & _ & Hsym).
  by apply lookup_range in Ho as ->.
Qed.

Lemma schedule_follows_week_pattern_witness :
  ["Push"; "Pull"] ≠ []
  ∧ ∃ p,
      generate_schedule ["Push"; "Pull"] 3 2 738886 20 = Some p
      ∧ ∀ i e, p !! i = Some e →
          ∃ sym, week_pattern 3 2 !! (i mod 7)%nat = Some sym
                 ∧ kind e = kind_of_symbol sym
                 ∧ match sym with
                   | H => label e ∈ ["Push"; "Pull"]
                   | C => label e = "Cardio"
                   | R => label e = "Rest"
                   end.
Proof.
  split; [discriminate|].
  apply (schedule_follows_week_pattern ["Push"; "Pull"] 3 2 738886 20).
  discriminate.
Defined.

Lemma count_kind_app k p q :
  count_kind k (p ++ q) = (count_kind k p + count_kind k q)%nat.
Proof. unfold count_kind. by rewrite filter_app, length_app. Qed.

Lemma count_kind_of_symbols (pattern : list symbol) (p : list entry) t :
  Forall2 (λ s e, kind e = kind_of_symbol s) pattern p →
  count_kind (kind_of_symbol t) p = count_symbol t pattern.
Proof.
  unfold count_kind, count_symbol.
  induction 1 as [|s e pattern p Hse _ IH]; [done|].
  rewrite !filter_cons, Hse.
  destruct (decide (s = t)) as [->|Hst].
  - rewrite decide_True by done. simpl. by rewrite IH.
  - rewrite decide_False by (by destruct s, t). done.
Qed.

(** One week of the loop: the seven entries generated from an offset that is
    a multiple of 7 have the kinds of the pattern, slot by slot. *)
Lemma week_of_entries labels (pattern : list symbol) start k (p : list entry) :
  length pattern = 7%nat →
  Forall2 (entry_follows labels pattern start) (seq (7 * k) 7) p →
  Forall2 (λ s e, kind e = kind_of_symbol s) pattern p.
Proof.
  intros Hlen Hall.
  apply Forall2_same_length_lookup_2.
  { apply Forall2_length in Hall. rewrite length_seq in Hall. lia. }
  intros i s e Hs He.
  destruct (Forall2_lookup_r _ _ _ _ _ Hall He) as (o & Ho & _ & sym & Hsym & Hk & _).
  apply lookup_seq in Ho as [-> Hi].
  replace ((7 * k + i) mod 7)%nat with i in Hsym.
  - rewrite Hs in Hsym. by injection Hsym as ->.
  - rewrite Nat.add_comm, Nat.mul_comm, Nat.Div0.mod_add.
    symmetry. by apply Nat.mod_small.
Qed.

Lemma count_kind_weeks labels (pattern : list symbol) start t k :
  length pattern = 7%nat →
  ∀ p : list entry,
    Forall2 (entry_follows labels pattern start) (seq 0 (7 * k)) p →
    count_kind (kind_of_symbol t) p = (k * count_symbol t pattern)%nat.
Proof.
  intros Hlen. induction k as [|k IH]; intros p Hall.
  - apply Forall2_nil_inv_l in Hall as ->. done.
  - replace (7 * Datatypes.S k)%nat with (7 * k + 7)%nat in Hall by lia.
    rewrite seq_app in Hall.
    apply Forall2_app_inv_l in Hall as (p1 & p2 & H1 & H2 & ->).
    rewrite count_kind_app, (IH p1 H1).
    rewrite (count_kind_of_symbols pattern p2 t); [lia|].
    by eapply week_of_entries.
Qed.

Lemma week_pattern_count h c :
  Z.of_nat (count_symbol H (week_pattern h c)) = clamp h 0 7
  ∧ Z.of_nat (count_symbol C (week_pattern h c)) = clamp c 0 (7 - clamp h 0 7).
Proof.
  unfold week_pattern, clamp.
  rewrite !count_symbol_app, !count_symbol_replicate.
  repeat case_decide; try congruence. lia.
Qed.

(** X3. A schedule of [k] whole weeks holds [k * clamp(h,0,7)] hypertrophy
    days, [k * clamp(c,0,7-clamp(h,0,7))] cardio days, and rest days for the
    remainder. *)
Theorem whole_weeks_counts labels h c start_date (k : nat) :
  labels ≠ [] →
  ∃ p,
    generate_schedule labels h c start_date (7 * Z.of_nat k) = Some p
    ∧ Z.of_nat (count_kind Hypertrophy p) = Z.of_nat k * clamp h 0 7
    ∧ Z.of_nat (count_kind Cardio p)
      = Z.of_nat k * clamp c 0 (7 - clamp h 0 7)
    ∧ Z.of_nat (count_kind Rest p)
      = Z.of_nat k * (7 - clamp h 0 7 - clamp c 0 (7 - clamp h 0 7)).
Proof.
  intros Hne.
  destruct (generate_schedule_spec labels h c start_date (7 * Z.of_nat k) Hne)
    as (p & Hgen & Hdates & _).
  exists p. split; [done|].
  pose proof (dates_length _ _ _ Hdates) as Hlen.
  apply generate_schedule_follows in Hgen. unfold range in Hgen.
  replace (Z.to_nat (7 * Z.of_nat k)) with (7 * k)%nat in Hgen by lia.
  pose proof (week_pattern_length h c) as H7.
  pose proof (count_kind_weeks _ _ _ H k H7 p Hgen) as HcH.
  pose proof (count_kind_weeks _ _ _ C k H7 p Hgen) as HcC.
  destruct (week_pattern_count h c) as [HH HC]. simpl in HcH, HcC.
  assert (Hsum : (count_kind Hypertrophy p + count_kind Cardio p
                  + count_kind Rest p = length p)%nat).
  { clear. unfold count_kind. induction p as [|e p IH]; [done|].
    rewrite !filter_cons. destruct (kind e); simpl;
      repeat case_decide; try congruence; simpl; lia. }
  split_and!; [nia | nia | nia].
Qed.

Lemma whole_weeks_counts_witness :
  ["Push"; "Pull"; "Legs"] ≠ []
  ∧ ∃ p,
      generate_schedule ["Push"; "Pull"; "Legs"] 4 5 738886
        (7 * Z.of_nat 8) = Some p
      ∧ Z.of_nat (count_kind Hypertrophy p) = Z.of_nat 8 * clamp 4 0 7
      ∧ Z.of_nat (count_kind Cardio p)
        = Z.of_nat 8 * clamp 5 0 (7 - clamp 4 0 7)
      ∧ Z.of_nat (count_kind Rest p)
        = Z.of_nat 8 * (7 - clamp 4 0 7 - clamp 5 0 (7 - clamp 4 0 7)).
Proof.
  split; [discriminate|].
  apply (whole_weeks_counts ["Push"; "Pull"; "Legs"] 4 5 738886 8).
  discriminate.
Defined.

Lemma dates_contiguous start n (p : list entry) :
  date <$> p = (λ o, start + Z.of_nat o) <$> range n → contiguous p.
Proof.
  intros Hd i e e' Hi Hi'.
  rewrite (dates_lookup _ _ _ _ _ Hd Hi), (dates_lookup _ _ _ _ _ Hd Hi'). lia.
Qed.

Lemma contiguous_date_at (p : list entry) e0 :
  contiguous p → p !! 0%nat = Some e0 →
  ∀ i e, p !! i = Some e → date e = date e0 + Z.of_nat i.
Proof.
  intros Hc H0. induction i as [|i IH]; intros e Hi.
  - rewrite H0 in Hi. injection Hi as <-. lia.
  - destruct (p !! i) as [ei|] eqn:Hei.
    + rewrite (Hc i ei e Hei Hi), (IH ei eq_refl). lia.
    + apply lookup_ge_None in Hei. apply lookup_lt_Some in Hi. lia.
Qed.

Lemma contiguous_app (p q : list entry) :
  contiguous p → contiguous q →
  (∀ e e', last p = Some e → head q = Some e' → date e' = date e + 1) →
  contiguous (p ++ q).
Proof.
  intros Hp Hq Hjoin i e e' Hi Hi'.
  destruct (decide (Datatypes.S i < length p)%nat) as [Hin|Hout].
  - rewrite lookup_app_l in Hi by lia. rewrite lookup_app_l in Hi' by lia.
    by eapply Hp.
  - destruct (decide (i < length p)%nat) as [Hlast|Hq'].
    + rewrite lookup_app_l in Hi by lia. rewrite lookup_app_r in Hi' by lia.
      apply Hjoin.
      * rewrite last_lookup. by replace (pred (length p)) with i by lia.
      * rewrite head_lookup.
        by replace (Datatypes.S i - length p)%nat with 0%nat in Hi' by lia.
    + rewrite lookup_app_r in Hi by lia. rewrite lookup_app_r in Hi' by lia.
      apply (Hq (i - length p)%nat); [done|].
      by replace (Datatypes.S (i - length p)) with (Datatypes.S i - length p)%nat by lia.
Qed.

(** Everything a call of [extend_schedule_if_needed] does, in one statement:
    [p0] is the plan the second half of the function starts from (the
    stored one, or the 60 days created for a missing or empty one) and
    [extra] is what gets appended. *)
Lemma extend_anatomy labels h c until today st :
  labels ≠ [] →
  ∃ p0 ps last0 extra,
    match plan st with
    | Some (e :: p') => p0 = e :: p' ∧ ps = plan_start st
    | _ => ps = Some today
           ∧ date <$> p0 = (λ o, today + Z.of_nat o) <$> range 60
           ∧ Forall (λ e, done e = false) p0
    end
    ∧ last p0 = Some last0
    ∧ extend_schedule_if_needed labels h c until today st
      = Some (State (Some (p0 ++ extra)) ps)
    ∧ if decide (date last0 < until)
      then date <$> extra
           = (λ o, date last0 + 1 + Z.of_nat o)
               <$> range (until - (date last0 + 1) + 30)
           ∧ Forall (λ e, done e = false) extra
      else extra = [].
Proof.
  intros Hne.
  assert (Hplan : ∀ p0 ps last0, last p0 = Some last0 →
    ∃ extra,
      extend_schedule_if_needed labels h c until today (State (Some p0) ps)
        = Some (State (Some (p0 ++ extra)) ps)
      ∧ if decide (date last0 < until)
        then date <$> extra
             = (λ o, date last0 + 1 + Z.of_nat o)
                 <$> range (until - (date last0 + 1) + 30)
             ∧ Forall (λ e, done e = false) extra
        else extra = []).
  { intros p0 ps last0 Hlast. destruct (decide (date last0 < until)) as [Hlt|Hge].
    - destruct (extend_when_short labels h c until today p0 ps last0 Hne Hlast Hlt)
        as (extra & Hext & _ & Hdates & Hdones & _).
      by exists extra.
    - exists []. rewrite app_nil_r. split; [|done].
      apply (extend_when_covered _ _ _ _ _ _ _ last0); [done | lia]. }
  destruct st as [[[|e0 p']|] pstart]; cbn [plan plan_start].
  - destruct (extend_bootstrap labels h c until today (State (Some []) pstart)
                Hne ltac:(by right)) as (p0 & l0 & Hgen & Hl0 & _ & Heq).
    destruct (generate_schedule_spec labels h c today 60 Hne)
      as (p0' & Hgen' & Hdates & Hdones & _).
    rewrite Hgen in Hgen'. injection Hgen' as <-.
    destruct (Hplan p0 (Some today) l0 Hl0) as (extra & Hext & Hextra).
    exists p0, (Some today), l0, extra. rewrite Heq. by split_and!.
  - destruct (last (e0 :: p')) as [l0|] eqn:Hl0.
    2:{ by apply last_None in Hl0. }
    destruct (Hplan (e0 :: p') pstart l0 Hl0) as (extra & Hext & Hextra).
    exists (e0 :: p'), pstart, l0, extra. by split_and!.
  - destruct (extend_bootstrap labels h c until today (State None pstart)
                Hne ltac:(by left)) as (p0 & l0 & Hgen & Hl0 & _ & Heq).
    destruct (generate_schedule_spec labels h c today 60 Hne)
      as (p0' & Hgen' & Hdates & Hdones & _).
    rewrite Hgen in Hgen'. injection Hgen' as <-.
    destruct (Hplan p0 (Some today) l0 Hl0) as (extra & Hext & Hextra).
    exists p0, (Some today), l0, extra. rewrite Heq. by split_and!.
Qed.

(** The last entry after the call, from [extend_anatomy]. *)
Lemma extended_last (p0 extra : list entry) last0 until :
  last p0 = Some last0 →
  (if decide (date last0 < until)
   then date <$> extra
        = (λ o, date last0 + 1 + Z.of_nat o)
            <$> range (until - (date last0 + 1) + 30)
        ∧ Forall (λ e, done e = false) extra
   else extra = []) →
  ∃ last1, last (p0 ++ extra) = Some last1
           ∧ until ≤ date last1
           ∧ date last1
             = if decide (date last0 < until) then until + 29 else date last0.
Proof.
  intros Hlast Hextra. destruct (decide (date last0 < until)) as [Hlt|Hge].
  - destruct Hextra as [Hdates _].
    destruct (dates_last (date last0 + 1) (until - (date last0 + 1) + 30)
                extra ltac:(lia) Hdates) as (e1 & Hl1 & Hd1).
    exists e1. rewrite last_app, Hl1. split_and!; [done | lia | lia].
  - subst extra. rewrite app_nil_r. exists last0. split_and!; [done | lia | done].
Qed.

Lemma extended_contiguous (p0 extra : list entry) last0 until :
  contiguous p0 → last p0 = Some last0 →
  (if decide (date last0 < until)
   then date <$> extra
        = (λ o, date last0 + 1 + Z.of_nat o)
            <$> range (until - (date last0 + 1) + 30)
        ∧ Forall (λ e, done e = false) extra
   else extra = []) →
  contiguous (p0 ++ extra).
Proof.
  intros Hc Hlast Hextra. destruct (decide (date last0 < until)) as [Hlt|Hge].
  - destruct Hextra as [Hdates _]. apply contiguous_app; [done | |].
    + by eapply dates_contiguous.
    + intros e e' He He'. rewrite Hlast in He. injection He as <-.
      rewrite head_lookup in He'.
      rewrite (dates_lookup _ _ _ _ _ Hdates He'). lia.
  - subst extra. by rewrite app_nil_r.
Qed.

(** X4. After [extend_schedule_if_needed] the state holds a non-empty plan
    whose last date is not before [until_date]: [until_date + 29] when the
    stored plan ended before [until_date], its old last date otherwise. *)
Theorem extend_covers_until labels h c until_date today st :
  labels ≠ [] →
  ∃ st' p last_e,
    extend_schedule_if_needed labels h c until_date today st = Some st'
    ∧ plan st' = Some p
    ∧ last p = Some last_e
    ∧ until_date ≤ date last_e
    ∧ (∀ p0 last0, plan st = Some p0 → last p0 = Some last0 →
         date last_e = if decide (date last0 < until_date)
                       then until_date + 29 else date last0).
Proof.
  intros Hne.
  destruct (extend_anatomy labels h c until_date today st Hne)
    as (p0 & ps & last0 & extra & Hp0 & Hlast & Hext & Hextra).
  destruct (extended_last p0 extra last0 until_date Hlast Hextra)
    as (last1 & Hl1 & Hge & Hmax).
  exists (State (Some (p0 ++ extra)) ps), (p0 ++ extra), last1.
  split_and!; [done | done | done | done |].
  intros q lq Hq Hlq. rewrite Hq in Hp0.
  destruct q as [|e q']; [done|]. destruct Hp0 as [-> _].
  rewrite Hlast in Hlq. by injection Hlq as <-.
Qed.

Lemma extend_covers_until_witness :
  ["Upper"; "Lower"] ≠ []
  ∧ ∃ st' p last_e,
      extend_schedule_if_needed ["Upper"; "Lower"] 2 2 738990 738886
        (State None None) = Some st'
      ∧ plan st' = Some p
      ∧ last p = Some last_e
      ∧ 738990 ≤ date last_e
      ∧ (∀ p0 last0, plan (State None None) = Some p0 → last p0 = Some last0 →
           date last_e = if decide (date last0 < 738990)
                         then 738990 + 29 else date last0).
Proof.
  split; [discriminate|].
  apply (extend_covers_until ["Upper"; "Lower"] 2 2 738990 738886
           (State None None)).
  discriminate.
Defined.

(** X5. Extension keeps the dates of the plan consecutive: if the stored
    plan (when there is one) has consecutive dates, so has the plan after
    the call. *)
Theorem extend_keeps_contiguous labels h c until_date today st :
  labels ≠ [] →
  (∀ p, plan st = Some p → contiguous p) →
  ∃ st' p',
    extend_schedule_if_needed labels h c until_date today st = Some st'
    ∧ plan st' = Some p'
    ∧ contiguous p'.
Proof.
  intros Hne Hst.
  destruct (extend_anatomy labels h c until_date today st Hne)
    as (p0 & ps & last0 & extra & Hp0 & Hlast & Hext & Hextra).
  exists (State (Some (p0 ++ extra)) ps), (p0 ++ extra).
  split_and!; [done | done |].
  apply (extended_contiguous _ _ last0 until_date); [|done|done].
  destruct (plan st) as [[|e q]|] eqn:Hq.
  - destruct Hp0 as (_ & Hdates & _). by eapply dates_contiguous.
  - destruct Hp0 as [-> _]. by apply Hst.
  - destruct Hp0 as (_ & Hdates & _). by eapply dates_contiguous.
Qed.

Lemma extend_keeps_contiguous_witness :
  let st := State (Some [Entry 738886 Hypertrophy "Push" true;
                         Entry 738887 Rest "Rest" false]) (Some 738886) in
  ["Push"; "Pull"] ≠ []
  ∧ (∀ p, plan st = Some p → contiguous p)
  ∧ ∃ st' p',
      extend_schedule_if_needed ["Push"; "Pull"] 3 1 738890 738900 st = Some st'
      ∧ plan st' = Some p'
      ∧ contiguous p'.
Proof.
  cbv zeta.
  assert (Hc : ∀ p,
    plan (State (Some [Entry 738886 Hypertrophy "Push" true;
                       Entry 738887 Rest "Rest" false]) (Some 738886)) = Some p →
    contiguous p).
  { intros p [= <-] [|[|i]] e e' Hi Hi'; simpl in Hi, Hi'; [|done|done].
    injection Hi as <-. injection Hi' as <-. reflexivity. }
  split; [discriminate|]. split; [exact Hc|].
  exact (extend_keeps_contiguous ["Push"; "Pull"] 3 1 738890 738900 _
           ltac:(discriminate) Hc).
Defined.

Lemma calendar_cell_found (p : list entry) i e d :
  p !! i = Some e → date e = d → (calendar_cell p d).1 ≠ "".
Proof.
  intros Hi Hd. unfold calendar_cell.
  destruct (list_find (λ e, date e = d) p) as [[j e']|] eqn:Hfind.
  - destruct (decide (kind e' = Rest)); [done|]. by destruct (done e').
  - apply list_find_None in Hfind. rewrite Forall_lookup in Hfind.
    by destruct (Hfind i e Hi).
Qed.

(** X6. After the call every day from the first date of the plan up to
    [until_date] has its entry, at the position given by its distance from
    the first date, so the calendar has a cell to draw for it. *)
Theorem extend_covers_every_day labels h c until_date today st :
  labels ≠ [] →
  (∀ p, plan st = Some p → contiguous p) →
  ∃ st' p' e0,
    extend_schedule_if_needed labels h c until_date today st = Some st'
    ∧ plan st' = Some p'
    ∧ head p' = Some e0
    ∧ ∀ d, date e0 ≤ d ≤ until_date →
        ∃ e, p' !! Z.to_nat (d - date e0) = Some e
             ∧ date e = d
             ∧ (calendar_cell p' d).1 ≠ "".
Proof.
  intros Hne Hst.
  destruct (extend_anatomy labels h c until_date today st Hne)
    as (p0 & ps & last0 & extra & Hp0 & Hlast & Hext & Hextra).
  destruct (extended_last p0 extra last0 until_date Hlast Hextra)
    as (last1 & Hl1 & Hge & _).
  assert (Hc0 : contiguous p0).
  { destruct (plan st) as [[|e q]|] eqn:Hq.
    - destruct Hp0 as (_ & Hdates & _). by eapply dates_contiguous.
    - destruct Hp0 as [-> _]. by apply Hst.
    - destruct Hp0 as (_ & Hdates & _). by eapply dates_contiguous. }
  pose proof (extended_contiguous _ _ last0 until_date Hc0 Hlast Hextra) as Hc.
  set (p' := p0 ++ extra) in *.
  destruct (head p') as [e0|] eqn:Hhead.
  2:{ apply head_None in Hhead. rewrite Hhead in Hl1. done. }
  exists (State (Some p') ps), p', e0. split_and!; [done | done | done |].
  rewrite head_lookup in Hhead. rewrite last_lookup in Hl1.
  pose proof (contiguous_date_at p' e0 Hc Hhead _ _ Hl1) as Hdl.
  assert (0 < length p')%nat by (apply lookup_lt_Some in Hhead; lia).
  intros d Hd.
  destruct (p' !! Z.to_nat (d - date e0)) as [e|] eqn:He.
  - pose proof (contiguous_date_at p' e0 Hc Hhead _ _ He) as Hde.
    exists e. split_and!; [done | lia |].
    eapply calendar_cell_found; [exact He | lia].
  - apply lookup_ge_None in He. lia.
Qed.

Lemma extend_covers_every_day_witness :
  let st := State (Some [Entry 738886 Hypertrophy "Push" true;
                         Entry 738887 Rest "Rest" false]) (Some 738886) in
  ["Push"; "Pull"] ≠ []
  ∧ (∀ p, plan st = Some p → contiguous p)
  ∧ ∃ st' p' e0,
      extend_schedule_if_needed ["Push"; "Pull"] 3 1 738890 738900 st = Some st'
      ∧ plan st' = Some p'
      ∧ head p' = Some e0
      ∧ ∀ d, date e0 ≤ d ≤ 738890 →
          ∃ e, p' !! Z.to_nat (d - date e0) = Some e
               ∧ date e = d
               ∧ (calendar_cell p' d).1 ≠ "".
Proof.
  cbv zeta.
  assert (Hc : ∀ p,
    plan (State (Some [Entry 738886 Hypertrophy "Push" true;
                       Entry 738887 Rest "Rest" false]) (Some 738886)) = Some p →
    contiguous p).
  { intros p [= <-] [|[|i]] e e' Hi Hi'; simpl in Hi, Hi'; [|done|done].
    injection Hi as <-. injection Hi' as <-. reflexivity. }
  split; [discriminate|]. split; [exact Hc|].
  exact (extend_covers_every_day ["Push"; "Pull"] 3 1 738890 738900 _
           ltac:(discriminate) Hc).
Defined.

(** X7. With no plan in the state (or an empty one) the call creates one
    that starts today, records today as the plan start, and holds 60 days,
    or [until_date - today + 30] days when [until_date] lies beyond those
    60; its [i]-th entry is dated [today + i] and nothing is marked done. *)
Theorem missing_plan_is_created labels h c until_date today st :
  labels ≠ [] →
  plan st = None ∨ plan st = Some [] →
  ∃ p',
    extend_schedule_if_needed labels h c until_date today st
      = Some (State (Some p') (Some today))
    ∧ Z.of_nat (length p')
      = (if decide (today + 59 < until_date)
         then until_date - today + 30 else 60)
    ∧ ∀ i e, p' !! i = Some e →
        date e = today + Z.of_nat i ∧ done e = false.
Proof.
  intros Hne Hnone.
  destruct (extend_anatomy labels h c until_date today st Hne)
    as (p0 & ps & last0 & extra & Hp0 & Hlast & Hext & Hextra).
  assert (Hboot : ps = Some today
                  ∧ date <$> p0 = (λ o, today + Z.of_nat o) <$> range 60
                  ∧ Forall (λ e, done e = false) p0).
  { by destruct Hnone as [Hn|Hn]; rewrite Hn in Hp0. }
  destruct Hboot as (-> & Hdates & Hdones).
  exists (p0 ++ extra). split; [done|].
  pose proof (dates_length _ _ _ Hdates) as Hlen0.
  destruct (dates_last today 60 p0 ltac:(lia) Hdates) as (l0 & Hl0 & Hd0).
  rewrite Hlast in Hl0. injection Hl0 as <-.
  pose proof (extended_contiguous _ _ last0 until_date
                (dates_contiguous _ _ _ Hdates) Hlast Hextra) as Hc.
  assert (Hhead : (p0 ++ extra) !! 0%nat = p0 !! 0%nat)
    by (apply lookup_app_l; lia).
  destruct (p0 !! 0%nat) as [e0|] eqn:He0.
  2:{ apply lookup_ge_None in He0. lia. }
  pose proof (dates_lookup _ _ _ _ _ Hdates He0) as Hde0.
  assert (Hdone : Forall (λ e, done e = false) (p0 ++ extra)
                  ∧ Z.of_nat (length (p0 ++ extra))
                    = (if decide (today + 59 < until_date)
                       then until_date - today + 30 else 60)).
  { rewrite length_app. destruct (decide (date last0 < until_date)) as [Hlt|Hge].
    - destruct Hextra as [Hd Hf]. split; [by apply Forall_app|].
      rewrite (dates_length _ _ _ Hd). rewrite decide_True by lia. lia.
    - subst extra. rewrite app_nil_r. split; [done|].
      rewrite decide_False by lia. simpl. lia. }
  destruct Hdone as [Hdone Hlen]. split; [done|].
  intros i e Hi. split.
  - rewrite (contiguous_date_at _ e0 Hc Hhead _ _ Hi). lia.
  - rewrite Forall_lookup in Hdone. by eapply Hdone.
Qed.

Lemma missing_plan_is_created_witness :
  ["Full Body"] ≠ []
  ∧ (plan (State None None) = None ∨ plan (State None None) = Some [])
  ∧ ∃ p',
      extend_schedule_if_needed ["Full Body"] 3 1 738990 738886 (State None None)
        = Some (State (Some p') (Some 738886))
      ∧ Z.of_nat (length p')
        = (if decide (738886 + 59 < 738990)
           then 738990 - 738886 + 30 else 60)
      ∧ ∀ i e, p' !! i = Some e →
          date e = 738886 + Z.of_nat i ∧ done e = false.
Proof.
  split; [discriminate|]. split; [by left|].
  apply (missing_plan_is_created ["Full Body"] 3 1 738990 738886
           (State None None)); [discriminate | by left].
Defined.

Lemma py_index_elem_of (p : list entry) (x : entry) :
  x ∈ p → ∃ idx, py_index p x = Some idx ∧ p !! idx = Some x.
Proof.
  intros Hin. unfold py_index.
  destruct (list_find_elem_of (λ y, y = x) p x Hin eq_refl) as [[idx y] Hfind].
  rewrite Hfind. exists idx. split; [done|].
  by apply list_find_Some in Hfind as (Hidx & -> & _).
Qed.

(** X8. A run of [show_today_control] changes nothing of the (extended)
    plan but [done] flags: the plan keeps its length and every entry its
    date, kind and label; a flag changes only when the save button is
    pressed, only on a workout entry dated today, and then to the value of
    the checkbox. *)
Theorem save_today_only_sets_done labels h c today checkbox save st :
  labels ≠ [] →
  ∃ st1 p1 st2 p2,
    extend_schedule_if_needed labels h c (today + 30) today st = Some st1
    ∧ plan st1 = Some p1
    ∧ show_today_control labels h c today checkbox save st = Some st2
    ∧ plan st2 = Some p2
    ∧ plan_start st2 = plan_start st1
    ∧ length p2 = length p1
    ∧ ∀ i e1, p1 !! i = Some e1 →
        ∃ e2, p2 !! i = Some e2
              ∧ date e2 = date e1 ∧ kind e2 = kind e1 ∧ label e2 = label e1
              ∧ (done e2 ≠ done e1 →
                 save = true ∧ date e1 = today ∧ kind e1 ≠ Rest
                 ∧ done e2 = checkbox).
Proof.
  intros Hne.
  destruct (extend_anatomy labels h c (today + 30) today st Hne)
    as (p0 & ps & last0 & extra & _ & _ & Hext & _).
  set (p1 := p0 ++ extra) in *.
  exists (State (Some p1) ps), p1.
  assert (Hsame : ∀ i e1, p1 !! i = Some e1 →
            ∃ e2, p1 !! i = Some e2
                  ∧ date e2 = date e1 ∧ kind e2 = kind e1 ∧ label e2 = label e1
                  ∧ (done e2 ≠ done e1 →
                     save = true ∧ date e1 = today ∧ kind e1 ≠ Rest
                     ∧ done e2 = checkbox)).
  { intros i e1 Hi. exists e1. by split_and!. }
  unfold show_today_control. rewrite Hext. cbn [mbind option_bind plan].
  destruct (filter (λ e, date e = today ∧ kind e ≠ Rest) p1)
    as [|entry others] eqn:Hfilter.
  { exists (State (Some p1) ps), p1. by split_and!. }
  destruct save.
  2:{ exists (State (Some p1) ps), p1. by split_and!. }
  assert (Hentry : entry ∈ filter (λ e, date e = today ∧ kind e ≠ Rest) p1)
    by (rewrite Hfilter; left).
  apply list_elem_of_filter in Hentry as [[Hdate Hkind] Hin].
  destruct (py_index_elem_of p1 entry Hin) as (idx & Hidx & Hat).
  rewrite Hidx. cbn [mbind option_bind plan_start].
  eexists _, _. split_and!; [done | done | done | done | done | by rewrite length_alter |].
  intros i e1 Hi. destruct (decide (i = idx)) as [->|Hneq].
  - rewrite Hat in Hi. injection Hi as <-.
    exists (set_done checkbox entry).
    rewrite list_lookup_alter, decide_True, Hat by done.
    by split_and!.
  - exists e1. rewrite list_lookup_alter_ne by done. by split_and!.
Qed.

Lemma save_today_only_sets_done_witness :
  ["Push"; "Pull"] ≠ []
  ∧ ∃ st1 p1 st2 p2,
      extend_schedule_if_needed ["Push"; "Pull"] 3 1 (738886 + 30) 738886
        (State None None) = Some st1
      ∧ plan st1 = Some p1
      ∧ show_today_control ["Push"; "Pull"] 3 1 738886 true true
          (State None None) = Some st2
      ∧ plan st2 = Some p2
      ∧ plan_start st2 = plan_start st1
      ∧ length p2 = length p1
      ∧ ∀ i e1, p1 !! i = Some e1 →
          ∃ e2, p2 !! i = Some e2
                ∧ date e2 = date e1 ∧ kind e2 = kind e1 ∧ label e2 = label e1
                ∧ (done e2 ≠ done e1 →
                   true = true ∧ date e1 = 738886 ∧ kind e1 ≠ Rest
                   ∧ done e2 = true).
Proof.
  split; [discriminate|].
  apply (save_today_only_sets_done ["Push"; "Pull"] 3 1 738886 true true
           (State None None)).
  discriminate.
Defined.

(** In a plan of consecutive dates a date names one position. *)
Lemma contiguous_date_unique (p : list entry) i j e x :
  contiguous p → p !! i = Some e → p !! j = Some x → date x = date e → j = i.
Proof.
  intros Hc Hi Hj Hd.
  destruct (p !! 0%nat) as [e0|] eqn:H0.
  2:{ apply lookup_ge_None in H0. apply lookup_lt_Some in Hi. lia. }
  pose proof (contiguous_date_at p e0 Hc H0 _ _ Hi).
  pose proof (contiguous_date_at p e0 Hc H0 _ _ Hj). lia.
Qed.

Lemma calendar_cell_at (p : list entry) i e :
  p !! i = Some e → kind e ≠ Rest →
  (∀ j y, p !! j = Some y → (j < i)%nat → date y ≠ date e) →
  calendar_cell p (date e) = (if done e then "🟩" else "🟧", label e).
Proof.
  intros Hi Hk Hfirst. unfold calendar_cell.
  assert (Hfind : list_find (λ x, date x = date e) p = Some (i, e))
    by (by apply list_find_Some).
  rewrite Hfind. by rewrite decide_False.
Qed.

(** X9. Saving today's workout as completed shows in the calendar: in a plan
    of consecutive dates that reaches 30 days ahead, pressing save with the
    box ticked marks exactly today's entry, today's cell turns to the green
    icon with the workout's label, and it stays so after any later
    extension of the plan. *)
Theorem saved_workout_shows_done labels h c today p pstart last_e i e :
  labels ≠ [] → contiguous p →
  last p = Some last_e → today + 30 ≤ date last_e →
  p !! i = Some e → date e = today → kind e ≠ Rest →
  ∃ p2,
    show_today_control labels h c today true true (State (Some p) pstart)
      = Some (State (Some p2) pstart)
    ∧ p2 = alter (set_done true) i p
    ∧ calendar_cell p2 today = ("🟩", label e)
    ∧ ∀ until_date today', ∃ p3,
        extend_schedule_if_needed labels h c until_date today'
          (State (Some p2) pstart) = Some (State (Some p3) pstart)
        ∧ calendar_cell p3 today = ("🟩", label e).
Proof.
  intros Hne Hc Hlast Hcov Hi Hdate Hkind.
  exists (alter (set_done true) i p).
  assert (Hat2 : alter (set_done true) i p !! i = Some (set_done true e))
    by (by rewrite list_lookup_alter, decide_True, Hi).
  assert (Hcell : ∀ extra,
    calendar_cell (alter (set_done true) i p ++ extra) today
    = ("🟩", label e)).
  { intros extra. rewrite <- Hdate.
    change (date e) with (date (set_done true e)).
    rewrite (calendar_cell_at _ i (set_done true e)); [done | | done |].
    - rewrite lookup_app_l; [done|]. by eapply lookup_lt_Some.
    - intros j y Hj Hlt Hd. rewrite lookup_app_l in Hj.
      2:{ apply lookup_lt_Some in Hat2. lia. }
      rewrite list_lookup_alter_ne in Hj by lia.
      pose proof (contiguous_date_unique p i j e y Hc Hi Hj Hd). lia. }
  split_and!; [ | done | | ].
  - unfold show_today_control.
    rewrite (extend_when_covered _ _ _ _ _ _ _ last_e Hlast Hcov).
    cbn [mbind option_bind plan].
    destruct (filter (λ e, date e = today ∧ kind e ≠ Rest) p)
      as [|entry others] eqn:Hfilter.
    { assert (He : e ∈ filter (λ e, date e = today ∧ kind e ≠ Rest) p).
      { apply list_elem_of_filter. split; [done|]. by eapply list_elem_of_lookup_2. }
      rewrite Hfilter in He. by apply elem_of_nil in He. }
    assert (Hentry : entry ∈ filter (λ e, date e = today ∧ kind e ≠ Rest) p)
      by (rewrite Hfilter; left).
    apply list_elem_of_filter in Hentry as [[Hd _] Hin].
    destruct (py_index_elem_of p entry Hin) as (idx & Hidx & Hidx').
    assert (idx = i) as ->.
    { eapply contiguous_date_unique; [done | exact Hi | exact Hidx' | congruence]. }
    by rewrite Hidx.
  - specialize (Hcell []). by rewrite app_nil_r in Hcell.
  - intros until_date today'.
    destruct (last (alter (set_done true) i p)) as [l2|] eqn:Hl2.
    2:{ apply last_None in Hl2. by rewrite Hl2 in Hat2. }
    destruct (extend_from_plan labels h c until_date today' _ pstart l2 Hne Hl2)
      as (extra & l3 & Hext & _).
    exists (alter (set_done true) i p ++ extra). split; [done | apply Hcell].
Qed.

Lemma saved_workout_shows_done_witness :
  let e := Entry 738887 Hypertrophy "Pull" false in
  let last_e := Entry 738920 Rest "Rest" false in
  ["Push"; "Pull"] ≠ []
  ∧ contiguous sample_plan
  ∧ last sample_plan = Some last_e
  ∧ 738887 + 30 ≤ date last_e
  ∧ sample_plan !! 1%nat = Some e
  ∧ date e = 738887
  ∧ kind e ≠ Rest
  ∧ ∃ p2,
      show_today_control ["Push"; "Pull"] 3 1 738887 true true
        (State (Some sample_plan) (Some 738886))
        = Some (State (Some p2) (Some 738886))
      ∧ p2 = alter (set_done true) 1%nat sample_plan
      ∧ calendar_cell p2 738887 = ("🟩", label e)
      ∧ ∀ until_date today', ∃ p3,
          extend_schedule_if_needed ["Push"; "Pull"] 3 1 until_date today'
            (State (Some p2) (Some 738886))
            = Some (State (Some p3) (Some 738886))
          ∧ calendar_cell p3 738887 = ("🟩", label e).
Proof.
  cbv zeta.
  assert (Hc : contiguous sample_plan).
  { apply (dates_contiguous 738886 35). vm_compute. reflexivity. }
  split; [discriminate|]. split; [exact Hc|].
  split; [vm_compute; reflexivity|]. split; [simpl; lia|].
  split; [vm_compute; reflexivity|]. split; [reflexivity|].
  split; [discriminate|].
  apply (saved_workout_shows_done ["Push"; "Pull"] 3 1 738887 sample_plan
           (Some 738886) (Entry 738920 Rest "Rest" false) 1
           (Entry 738887 Hypertrophy "Pull" false));
    [discriminate | exact Hc | vm_compute; reflexivity | simpl; lia
    | vm_compute; reflexivity | reflexivity | discriminate].
Defined.

Lemma py_date_first y m :
  1 ≤ y ≤ 9999 → 1 ≤ m ≤ 12 → py_date y m 1 = Some (Ymd y m 1).
Proof.
  intros Hy Hm. unfold py_date. rewrite decide_True; [done|].
  split_and!; try lia. unfold days_in_month. repeat case_match; lia.
Qed.

(** What the two buttons do to a shown month that is valid. *)
Lemma previous_month_press_spec plan_start v :
  1 < year plan_start → 1 ≤ month plan_start ≤ 12 →
  view_ok plan_start v →
  previous_month_press plan_start v
  = Some (if decide (cal_year v = year plan_start
                     ∧ cal_month v = month plan_start) then v
          else if decide (cal_month v = 1)
               then View (cal_year v - 1) 12
               else View (cal_year v) (cal_month v - 1)).
Proof.
  intros Hy Hm (Hvm & Hvy & Hge). unfold previous_month_press.
  rewrite (py_date_first (cal_year v) (cal_month v)) by lia.
  cbn [mbind option_bind].
  rewrite (py_date_first (year plan_start) (month plan_start)) by lia.
  destruct (decide (cal_month v - 1 = 0)) as [H1|H1].
  - rewrite (py_date_first (cal_year v - 1) 12) by lia.
    cbn [mbind option_bind]. unfold ymd_ge. cbn [year month day].
    rewrite (decide_True (P := cal_month v = 1)) by lia.
    case_bool_decide; case_decide; try done; lia.
  - rewrite (py_date_first (cal_year v) (cal_month v - 1)) by lia.
    cbn [mbind option_bind]. unfold ymd_ge. cbn [year month day].
    rewrite (decide_False (P := cal_month v = 1)) by lia.
    case_bool_decide; case_decide; try done; lia.
Qed.

Lemma next_month_press_spec v :
  1 ≤ cal_year v ≤ 9999 → 1 ≤ cal_month v ≤ 12 →
  next_month_press v
  = Some (if decide (cal_month v = 12) then View (cal_year v + 1) 1
          else View (cal_year v) (cal_month v + 1)).
Proof.
  intros Hy Hm. unfold next_month_press.
  rewrite (py_date_first (cal_year v) (cal_month v)) by lia.
  cbn [mbind option_bind].
  destruct (decide (cal_month v + 1 = 13)); case_decide; try done; lia.
Qed.

(** X10. Month navigation keeps the shown month valid: from a real month
    that is not before the month the plan starts in, "Previous month" runs
    without error and shows such a month again, and so does "Next month"
    before the year 9999. *)
Theorem month_navigation_stays_valid plan_start v :
  1 < year plan_start → 1 ≤ month plan_start ≤ 12 →
  view_ok plan_start v →
  (∃ v', previous_month_press plan_start v = Some v' ∧ view_ok plan_start v')
  ∧ (cal_year v < 9999 →
     ∃ v', next_month_press v = Some v' ∧ view_ok plan_start v').
Proof.
  intros Hy Hm Hv. pose proof Hv as (Hvm & Hvy & Hge). split.
  - rewrite previous_month_press_spec by done. eexists. split; [done|].
    unfold view_ok. repeat case_decide; cbn [cal_year cal_month]; lia.
  - intros Hlt. rewrite next_month_press_spec by lia. eexists. split; [done|].
    unfold view_ok. case_decide; cbn [cal_year cal_month]; lia.
Qed.

Lemma month_navigation_stays_valid_witness :
  1 < year (Ymd 2024 1 15) ∧ 1 ≤ month (Ymd 2024 1 15) ≤ 12
  ∧ view_ok (Ymd 2024 1 15) (View 2024 12)
  ∧ (∃ v', previous_month_press (Ymd 2024 1 15) (View 2024 12) = Some v'
           ∧ view_ok (Ymd 2024 1 15) v')
  ∧ (cal_year (View 2024 12) < 9999 →
     ∃ v', next_month_press (View 2024 12) = Some v'
           ∧ view_ok (Ymd 2024 1 15) v').
Proof.
  assert (Hv : view_ok (Ymd 2024 1 15) (View 2024 12))
    by (unfold view_ok; simpl; lia).
  split; [simpl; lia|]. split; [simpl; lia|]. split; [exact Hv|].
  apply (month_navigation_stays_valid (Ymd 2024 1 15) (View 2024 12));
    [simpl; lia | simpl; lia | exact Hv].
Defined.

(** X11. The two buttons undo each other: "Next month" followed by
    "Previous month" shows the month one started from, and "Previous month"
    followed by "Next month" does so whenever the shown month is after the
    month the plan starts in. *)
Theorem month_buttons_undo_each_other plan_start v :
  1 < year plan_start → 1 ≤ month plan_start ≤ 12 →
  view_ok plan_start v → cal_year v < 9999 →
  (∃ v', next_month_press v = Some v'
         ∧ previous_month_press plan_start v' = Some v)
  ∧ (¬ (cal_year v = year plan_start ∧ cal_month v = month plan_start) →
     ∃ v', previous_month_press plan_start v = Some v'
           ∧ v' ≠ v
           ∧ next_month_press v' = Some v).
Proof.
  intros Hy Hm Hv Hlt. pose proof Hv as (Hvm & Hvy & Hge).
  destruct v as [vy vm]. cbn [cal_year cal_month] in *. split.
  - rewrite next_month_press_spec by (cbn [cal_year cal_month]; lia).
    eexists. split; [done|]. cbn [cal_year cal_month].
    destruct (decide (vm = 12)) as [->|Hne].
    + rewrite previous_month_press_spec;
        [| done | done | unfold view_ok; cbn [cal_year cal_month]; lia].
      cbn [cal_year cal_month].
      rewrite decide_False by lia. rewrite decide_True by done.
      do 2 f_equal. lia.
    + rewrite previous_month_press_spec;
        [| done | done | unfold view_ok; cbn [cal_year cal_month]; lia].
      cbn [cal_year cal_month].
      rewrite decide_False by lia. rewrite decide_False by lia.
      do 2 f_equal. lia.
  - intros Hstart. rewrite previous_month_press_spec by done.
    cbn [cal_year cal_month]. rewrite decide_False by done.
    eexists. split; [done|].
    destruct (decide (vm = 1)) as [->|Hne].
    + split; [intros [=]; lia|].
      rewrite next_month_press_spec by (cbn [cal_year cal_month]; lia).
      cbn [cal_year cal_month]. rewrite decide_True by done.
      do 2 f_equal. lia.
    + split; [intros [=]; lia|].
      rewrite next_month_press_spec by (cbn [cal_year cal_month]; lia).
      cbn [cal_year cal_month]. rewrite decide_False by lia.
      do 2 f_equal. lia.
Qed.

Lemma month_buttons_undo_each_other_witness :
  1 < year (Ymd 2024 1 15) ∧ 1 ≤ month (Ymd 2024 1 15) ≤ 12
  ∧ view_ok (Ymd 2024 1 15) (View 2024 12)
  ∧ cal_year (View 2024 12) < 9999
  ∧ (∃ v', next_month_press (View 2024 12) = Some v'
           ∧ previous_month_press (Ymd 2024 1 15) v' = Some (View 2024 12))
  ∧ (¬ (cal_year (View 2024 12) = year (Ymd 2024 1 15)
        ∧ cal_month (View 2024 12) = month (Ymd 2024 1 15)) →
     ∃ v', previous_month_press (Ymd 2024 1 15) (View 2024 12) = Some v'
           ∧ v' ≠ View 2024 12
           ∧ next_month_press v' = Some (View 2024 12)).
Proof.
  assert (Hv : view_ok (Ymd 2024 1 15) (View 2024 12))
    by (unfold view_ok; simpl; lia).
  split; [simpl; lia|]. split; [simpl; lia|]. split; [exact Hv|].
  split; [simpl; lia|].
  apply (month_buttons_undo_each_other (Ymd 2024 1 15) (View 2024 12));
    [simpl; lia | simpl; lia | exact Hv | simpl; lia].
Defined.

(** X12. The calendar cannot be moved before the plan: when the month the
    plan starts in is shown, "Previous month" leaves it shown (for a plan
    that starts after the year 1, the first year a date can have). *)
Theorem previous_month_stops_at_plan_start plan_start :
  1 < year plan_start ≤ 9999 → 1 ≤ month plan_start ≤ 12 →
  previous_month_press plan_start (View (year plan_start) (month plan_start))
  = Some (View (year plan_start) (month plan_start)).
Proof.
  intros Hy Hm.
  rewrite previous_month_press_spec;
    [| lia | done | unfold view_ok; cbn [cal_year cal_month]; lia].
  cbn [cal_year cal_month]. by rewrite decide_True.
Qed.

Lemma previous_month_stops_at_plan_start_witness :
  1 < year (Ymd 2024 1 15) ≤ 9999 ∧ 1 ≤ month (Ymd 2024 1 15) ≤ 12
  ∧ previous_month_press (Ymd 2024 1 15)
      (View (year (Ymd 2024 1 15)) (month (Ymd 2024 1 15)))
    = Some (View (year (Ymd 2024 1 15)) (month (Ymd 2024 1 15))).
Proof.
  split; [simpl; lia|]. split; [simpl; lia|].
  apply (previous_month_stops_at_plan_start (Ymd 2024 1 15)); simpl; lia.
Defined.

End CalendarMore.

(** * Further properties of the workout builder and the flashcard session *)

Section PlannerMore.
Import Planner.

(** The muscles collected by the loop over the keyword table. *)
Lemma found_fold (title : string) (all_muscles : list string)
    (table : list (string * list string)) :
  ∀ (found0 : gset string) (m : string),
    m ∈ foldl (λ (found : gset string) km,
                 if contains km.1 title
                 then found ∪ list_to_set
                                (filter (λ m, m ∈ all_muscles) km.2)
                 else found) found0 table
    ↔ m ∈ found0
      ∨ (m ∈ all_muscles
         ∧ ∃ km, km ∈ table ∧ contains km.1 title = true ∧ m ∈ km.2).
Proof.
  induction table as [|km table IH]; intros found0 m; simpl.
  - split; [by left|]. intros [?|(_ & km & Hkm & _)]; [done|].
    by apply elem_of_nil in Hkm.
  - rewrite IH. destruct (contains km.1 title) eqn:Hc.
    + rewrite elem_of_union, elem_of_list_to_set, list_elem_of_filter. split.
      * intros [[?|[Hall Hm]]|(Hall & km' & Hkm' & Hc' & Hm)].
        -- by left.
        -- right. split; [done|]. exists km. split_and!; [left | done | done].
        -- right. split; [done|]. exists km'. split_and!; [by right | done | done].
      * intros [?|(Hall & km' & Hkm' & Hc' & Hm)]; [by left; left|].
        apply elem_of_cons in Hkm' as [->|Hkm'].
        -- left. by right.
        -- right. split; [done|]. by exists km'.
    + split.
      * intros [?|(Hall & km' & Hkm' & Hc' & Hm)]; [by left|].
        right. split; [done|]. exists km'. split_and!; [by right | done | done].
      * intros [?|(Hall & km' & Hkm' & Hc' & Hm)]; [by left|].
        apply elem_of_cons in Hkm' as [->|Hkm']; [congruence|].
        right. split; [done|]. by exists km'.
Qed.

(** The two ways [infer_muscles_from_title] returns. *)
Lemma infer_muscles_cases title all_muscles :
  ((∀ m, ¬ keyword_match title all_muscles m)
   ∧ infer_muscles_from_title title all_muscles = take 3 all_muscles)
  ∨ ((∃ m, keyword_match title all_muscles m)
     ∧ NoDup (infer_muscles_from_title title all_muscles)
     ∧ ∀ m, m ∈ infer_muscles_from_title title all_muscles
            ↔ keyword_match title all_muscles m).
Proof.
  unfold infer_muscles_from_title, keyword_match.
  set (found := foldl _ ∅ mapping).
  assert (Hfound : ∀ m, m ∈ found
            ↔ m ∈ all_muscles
              ∧ ∃ km, km ∈ mapping ∧ contains km.1 (lower title) = true
                      ∧ m ∈ km.2).
  { intros m. unfold found. rewrite found_fold. split; [|by right].
    intros [Hin|?]; [|done]. by apply elem_of_empty in Hin. }
  destruct (decide (found = ∅)) as [Hempty|Hsome].
  - left. split; [|done]. intros m Hm. apply Hfound in Hm.
    rewrite Hempty in Hm. by apply elem_of_empty in Hm.
  - right. split_and!.
    + apply set_choose_L in Hsome as [m Hm]. exists m. by apply Hfound.
    + apply NoDup_elements.
    + intros m. by rewrite elem_of_elements, Hfound.
Qed.

(** X13. Every inferred target is a known muscle group, and the list of
    targets is empty only when no muscle group is known at all. *)
Theorem inferred_targets_known title all_muscles :
  Forall (λ m, m ∈ all_muscles) (infer_muscles_from_title title all_muscles)
  ∧ (infer_muscles_from_title title all_muscles = [] ↔ all_muscles = []).
Proof.
  destruct (infer_muscles_cases title all_muscles)
    as [[Hnone ->]|((m0 & Hm0) & _ & Hiff)].
  - split.
    + apply Forall_forall. intros m Hm.
      apply elem_of_take in Hm as (i & Hi & _). by eapply list_elem_of_lookup_2.
    + by destruct all_muscles.
  - split.
    + apply Forall_forall. intros m Hm. by apply Hiff in Hm as [? _].
    + split.
      * intros Hnil. apply Hiff in Hm0. rewrite Hnil in Hm0.
        by apply elem_of_nil in Hm0.
      * intros ->. destruct Hm0 as [Hin _]. by apply elem_of_nil in Hin.
Qed.

(** X14. When a keyword of the table occurs in the title (in any case) and
    lists a known muscle group, the targets are exactly the known muscle
    groups listed under the keywords that occur, each once. *)
Theorem inferred_targets_by_keyword title all_muscles :
  (∃ m, keyword_match title all_muscles m) →
  NoDup (infer_muscles_from_title title all_muscles)
  ∧ ∀ m, m ∈ infer_muscles_from_title title all_muscles
         ↔ keyword_match title all_muscles m.
Proof.
  intros [m0 Hm0].
  destruct (infer_muscles_cases title all_muscles) as [[Hnone _]|(_ & Hnd & Hiff)].
  - by destruct (Hnone m0).
  - done.
Qed.

Lemma inferred_targets_by_keyword_witness :
  let all_muscles := ["Back"; "Chest"; "Legs"; "Shoulders"] in
  (∃ m, keyword_match "PUSH day" all_muscles m)
  ∧ NoDup (infer_muscles_from_title "PUSH day" all_muscles)
  ∧ ∀ m, m ∈ infer_muscles_from_title "PUSH day" all_muscles
         ↔ keyword_match "PUSH day" all_muscles m.
Proof.
  cbv zeta.
  assert (Hex : ∃ m, keyword_match "PUSH day"
                       ["Back"; "Chest"; "Legs"; "Shoulders"] m).
  { exists "Chest". split; [by right; left|].
    exists ("push", ["Chest"; "Triceps"; "Shoulders"]).
    split_and!; [by left | reflexivity | by left]. }
  split; [exact Hex|].
  exact (inferred_targets_by_keyword "PUSH day"
           ["Back"; "Chest"; "Legs"; "Shoulders"] Hex).
Defined.

(** X15. When no keyword that occurs in the title lists a known muscle
    group, the targets are the first three known muscle groups. *)
Theorem inferred_targets_fallback title all_muscles :
  (∀ m, ¬ keyword_match title all_muscles m) →
  infer_muscles_from_title title all_muscles = take 3 all_muscles.
Proof.
  intros Hnone.
  destruct (infer_muscles_cases title all_muscles) as [[_ ->]|((m0 & Hm0) & _)].
  - done.
  - by destruct (Hnone m0).
Qed.

Lemma inferred_targets_fallback_witness :
  let all_muscles := ["Abs"; "Back"; "Chest"; "Legs"] in
  (∀ m, ¬ keyword_match "Morning Yoga" all_muscles m)
  ∧ infer_muscles_from_title "Morning Yoga" all_muscles = take 3 all_muscles.
Proof.
  cbv zeta.
  assert (Hnone : ∀ m, ¬ keyword_match "Morning Yoga"
                           ["Abs"; "Back"; "Chest"; "Legs"] m).
  { intros m (_ & km & Hkm & Hc & _). unfold mapping in Hkm.
    repeat (apply elem_of_cons in Hkm as [->|Hkm]; [discriminate Hc|]).
    by apply elem_of_nil in Hkm. }
  split; [exact Hnone|].
  exact (inferred_targets_fallback "Morning Yoga"
           ["Abs"; "Back"; "Chest"; "Legs"] Hnone).
Defined.

Lemma sort_by_score_length (l : list (row * Q)) :
  length (sort_by_score l) = length l.
Proof. unfold sort_by_score. by rewrite merge_sort_Permutation. Qed.

(** The plan in one expression: the first rows of the ranking, each turned
    into a plan entry. *)
Lemma build_workout_plan_ranked df title minutes wishes soreness intensity jitter :
  build_workout_plan df title minutes wishes soreness intensity jitter
  = (λ rs : row * Q, plan_entry intensity rs.1)
      <$> take (Z.to_nat (Z.min (compute_num_exercises minutes intensity)
                            (Z.of_nat (length (drop_very_sore soreness df)))))
               (ranked_rows df title soreness intensity jitter).
Proof.
  unfold build_workout_plan, ranked_rows, scored_rows, plan_entry.
  destruct (drop_very_sore soreness df) as [|r0 df'] eqn:Hdf.
  { cbn. by rewrite take_nil. }
  destruct (sets_reps_rest intensity) as [[sets reps] rest].
  by rewrite sort_by_score_length, length_imap.
Qed.

Lemma ranked_rows_perm df title soreness intensity jitter :
  ranked_rows df title soreness intensity jitter
  ≡ₚ scored_rows df title soreness intensity jitter.
Proof. apply merge_sort_Permutation. Qed.

Lemma scored_rows_fst df title soreness intensity jitter :
  (scored_rows df title soreness intensity jitter).*1
  = drop_very_sore soreness df.
Proof.
  unfold scored_rows. generalize (drop_very_sore soreness df) as l.
  intros l. revert jitter. induction l as [|r l IH]; intros jitter; [done|].
  rewrite imap_cons. cbn [fmap list_fmap fst]. f_equal.
  apply (IH (jitter ∘ Datatypes.S)).
Qed.

(** X16. The builder returns the empty plan only when no row is left after
    the soreness filter; otherwise the plan holds at least
    [min(3, remaining rows)] and at most 12 exercises. *)
Theorem plan_empty_only_without_rows df title minutes wishes soreness intensity
    jitter :
  let plan := build_workout_plan df title minutes wishes soreness intensity
                jitter in
  let remaining := drop_very_sore soreness df in
  (plan = [] ↔ remaining = [])
  ∧ (Nat.min 3 (length remaining) ≤ length plan ≤ 12)%nat
  ∧ (length plan ≤ length remaining)%nat.
Proof.
  cbv zeta.
  pose proof (build_workout_plan_length df title minutes wishes soreness
                intensity jitter) as Hlen.
  pose proof (compute_num_exercises_bounds minutes intensity) as Hb.
  split_and!; [|lia|lia|lia]. split.
  - intros Hnil. rewrite Hnil in Hlen.
    destruct (drop_very_sore soreness df); [done | simpl in Hlen; lia].
  - intros Hnil. rewrite Hnil in Hlen.
    destruct (build_workout_plan _ _ _ _ _ _ _); [done | simpl in Hlen; lia].
Qed.

(** X17. Every exercise of a plan carries the same prescription, the one of
    the intensity: 2 sets for Light, 3 for Moderate and 4 for anything
    else. *)
Theorem plan_uniform_prescription df title minutes wishes soreness intensity
    jitter :
  Forall (λ ex, (sets ex, reps ex, rest ex) = sets_reps_rest intensity
                ∧ sets ex = (if String.eqb intensity "Light" then 2
                             else if String.eqb intensity "Moderate" then 3
                             else 4))
         (build_workout_plan df title minutes wishes soreness intensity jitter).
Proof.
  rewrite build_workout_plan_ranked. apply Forall_fmap, Forall_forall.
  intros [r q] _. unfold plan_entry, sets_reps_rest. simpl.
  by repeat case_match.
Qed.

(** X18. No catalog row is used twice: counted with multiplicity, the rows
    the plan entries were made from are among the rows left after the
    soreness filter. *)
Theorem plan_rows_used_once df title minutes wishes soreness intensity jitter :
  exercise_fields
    <$> build_workout_plan df title minutes wishes soreness intensity jitter
  ⊆+ row_fields <$> drop_very_sore soreness df.
Proof.
  rewrite build_workout_plan_ranked, <- list_fmap_compose.
  generalize (Z.to_nat (Z.min (compute_num_exercises minutes intensity)
                          (Z.of_nat (length (drop_very_sore soreness df))))).
  intros n.
  trans ((row_fields ∘ fst)
           <$> ranked_rows df title soreness intensity jitter).
  { apply (fmap_submseteq (row_fields ∘ fst)), submseteq_take. }
  apply Permutation_submseteq.
  rewrite (ranked_rows_perm df title soreness intensity jitter).
  by rewrite list_fmap_compose, scored_rows_fst.
Qed.









Lemma show_flashcards_no_press w i :
  0 ≤ i < Z.of_nat (length w) →
  show_flashcards None (Session w i false) = Some (Session w i false).
Proof.
  intros Hi. unfold show_flashcards, py_getitem. simpl.
  destruct (decide (0 ≤ i)) as [_|?]; [|lia].
  destruct (w !! Z.to_nat i) as [ex|] eqn:Hex.
  2:{ apply lookup_ge_None in Hex. lia. }
  simpl. destruct (decide (0 < i ∧ None = Some Previous)) as [[_ ?]|_]; done.
Qed.

(** [round(minutes / 8)] in integer terms: the quotient, one more when the
    remainder is above 4, and at exactly 4 the even one of the two. *)
Lemma py_round_eighths (m : Z) :
  py_round (inject_Z m / 8)
  = if decide (m mod 8 < 4) then m / 8
    else if decide (4 < m mod 8) then m / 8 + 1
    else if Z.even (m / 8) then m / 8 else m / 8 + 1.
Proof.
  unfold py_round.
  assert (Hf : Qfloor (inject_Z m / 8) = m / 8).
  { unfold Qfloor, Qdiv, Qmult, Qinv, inject_Z. simpl. by rewrite Z.mul_1_r. }
  rewrite Hf.
  assert (Hc : (inject_Z m / 8 - inject_Z (m / 8) ?= 1 # 2)%Q
               = (2 * (m mod 8) ?= 8)).
  { unfold Qcompare, Qminus, Qplus, Qopp, Qdiv, Qmult, Qinv, inject_Z. simpl.
    f_equal. rewrite Z.mod_eq by lia. lia. }
  rewrite Hc. destruct (Z.compare_spec (2 * (m mod 8)) 8);
    repeat case_decide; try lia; done.
Qed.

Lemma py_round_eighths_mono (m1 m2 : Z) :
  m1 ≤ m2 → py_round (inject_Z m1 / 8) ≤ py_round (inject_Z m2 / 8).
Proof.
  intros Hle. rewrite !py_round_eighths.
  pose proof (Z.div_le_mono m1 m2 8 ltac:(lia) Hle) as Hdiv.
  pose proof (Z.mod_pos_bound m1 8 ltac:(lia)).
  pose proof (Z.mod_pos_bound m2 8 ltac:(lia)).
  pose proof (Z.div_mod m1 8 ltac:(lia)).
  pose proof (Z.div_mod m2 8 ltac:(lia)).
  destruct (Z.even (m1 / 8)) eqn:He1; destruct (Z.even (m2 / 8)) eqn:He2;
    repeat case_decide; try lia.
  all: destruct (decide (m1 / 8 = m2 / 8)) as [Heq|Hne];
    [rewrite Heq in He1; congruence | lia].
Qed.

(** X20. A harder session never has fewer exercises: for the same minutes
    the count for Light is at most the count for Moderate, which is at most
    the count for maximum effort; all lie between 3 and 12, Light at most 8
    and Moderate at most 10. *)
Theorem count_grows_with_intensity (minutes : Z) :
  3 ≤ compute_num_exercises minutes "Light"
  ∧ compute_num_exercises minutes "Light"
    ≤ compute_num_exercises minutes "Moderate"
  ∧ compute_num_exercises minutes "Moderate"
    ≤ compute_num_exercises minutes "Max effort"
  ∧ compute_num_exercises minutes "Max effort" ≤ 12
  ∧ compute_num_exercises minutes "Light" ≤ 8
  ∧ compute_num_exercises minutes "Moderate" ≤ 10.
Proof.
  rewrite !compute_num_exercises_closed. cbv zeta. cbn [String.eqb Ascii.eqb].
  unfold clamp.
  set (base := Z.max 3 (Z.min 10 (py_round (inject_Z minutes / 8)))).
  assert (Hb : 3 ≤ base ≤ 10) by lia. clearbody base.
  assert (base * 8 / 10 ≤ base) by (apply Z.div_le_upper_bound; lia).
  assert (base * 8 / 10 ≤ 8) by (apply Z.div_le_upper_bound; lia).
  assert (base ≤ base * 12 / 10) by (apply Z.div_le_lower_bound; lia).
  simpl. lia.
Qed.

(** X21. More time never means fewer exercises: at every intensity the
    count does not decrease when the minutes increase. *)
Theorem count_grows_with_minutes (minutes1 minutes2 : Z) (intensity : string) :
  minutes1 ≤ minutes2 →
  compute_num_exercises minutes1 intensity
  ≤ compute_num_exercises minutes2 intensity.
Proof.
  intros Hle. rewrite !compute_num_exercises_closed. cbv zeta. unfold clamp.
  pose proof (py_round_eighths_mono minutes1 minutes2 Hle) as Hr.
  set (b1 := Z.max 3 (Z.min 10 (py_round (inject_Z minutes1 / 8)))).
  set (b2 := Z.max 3 (Z.min 10 (py_round (inject_Z minutes2 / 8)))).
  assert (Hb : b1 ≤ b2) by lia. clearbody b1 b2.
  assert (b1 * 8 / 10 ≤ b2 * 8 / 10) by (apply Z.div_le_mono; lia).
  assert (b1 * 12 / 10 ≤ b2 * 12 / 10) by (apply Z.div_le_mono; lia).
  repeat case_match; lia.
Qed.

Lemma count_grows_with_minutes_witness :
  45 ≤ 60
  ∧ compute_num_exercises 45 "Light" ≤ compute_num_exercises 60 "Light".
Proof.
  split; [lia|]. apply (count_grows_with_minutes 45 60 "Light"). lia.
Defined.

(** One run of [main] keeps [session_ok], whatever the user does. *)
Lemma main_keeps_session_ok state ev :
  session_ok state →
  ∃ state', main state ev = Some state' ∧ session_ok state'.
Proof.
  intros Hok. destruct state as [[w i fin]|]; simpl in Hok.
  - destruct Hok as [Hw Hi]. destruct fin.
    + destruct ev; simpl; eexists; (split; [done|]); by simpl.
    + unfold main. cbn [finished negb].
      assert (Hpress : ∀ b, ∃ s', show_flashcards (Some b) (Session w i false)
                                  = Some s' ∧ session_ok (Some s')).
      { intros b.
        change (show_flashcards (Some b) (Session w i false))
          with (session_step (Session w i false) b).
        destruct b.
        - rewrite session_step_previous by done. eexists. split; [done|].
          simpl. split; [done|]. case_decide; lia.
        - rewrite session_step_next by done. eexists. split; [done|].
          simpl. split; [done|]. case_bool_decide; lia. }
      destruct ev as [| b | |];
        try (rewrite show_flashcards_no_press by done; eexists;
             split; [done|]; by simpl).
      destruct (Hpress b) as (s' & -> & Hs'). by eexists.
  - destruct ev; simpl; try (eexists; split; [done|]; done).
    destruct (build_workout_plan _ _ _ _ _ _ _) as [|ex w] eqn:Hw.
    + eexists. split; [done|]. done.
    + eexists. split; [done|]. simpl. split; [done | lia].
Qed.

(** X22. The workout page never raises: whatever the user does, in whatever
    order (generating workouts from any catalog, pressing next and previous,
    going back to the builder), every run of [main] succeeds, and the
    session it keeps always shows a card of a non-empty workout or stands
    just past the last card of a finished one. *)
Theorem workout_page_never_raises (events : list event) :
  ∃ state, for_each main events None = Some state ∧ session_ok state.
Proof.
  assert (Hgen : ∀ state, session_ok state →
            ∃ state', for_each main events state = Some state'
                      ∧ session_ok state').
  { induction events as [|ev events IH]; intros state Hok.
    - by exists state.
    - destruct (main_keeps_session_ok state ev Hok) as (state1 & Hrun & Hok1).
      rewrite for_each_cons, Hrun. cbn [mbind option_bind]. by apply IH. }
  by apply Hgen.
Qed.

(** X23. A finished session ignores the flashcard buttons: no sequence of
    next and previous presses changes it. *)
Theorem finished_session_ignores_presses (s : session) (presses : list button) :
  finished s = true → run_session presses s = Some s.
Proof.
  intros Hfin. unfold run_session.
  induction presses as [|b presses IH]; [done|].
  rewrite for_each_cons.
  assert (Hstep : session_step s b = Some s)
    by (unfold session_step; by rewrite Hfin).
  by rewrite Hstep.
Qed.

Lemma finished_session_ignores_presses_witness :
  let s := Session (build_workout_plan sample_catalog "Push Day" 45 "" ∅
                      "Light" (λ _, 0%Q)) 4 true in
  finished s = true
  ∧ run_session [Previous; Next; Next; Previous] s = Some s.
Proof.
  cbv zeta. split; [reflexivity|].
  by apply (finished_session_ignores_presses _ [Previous; Next; Next; Previous]).
Defined.

(** X24. Next and previous undo each other: from a card that is not the
    last, next followed by previous comes back to it, and from a card that
    is not the first, previous followed by next does. *)
Theorem next_and_previous_undo_each_other (w : list exercise) (i : Z) :
  0 ≤ i < Z.of_nat (length w) →
  (i + 1 < Z.of_nat (length w) →
   run_session [Next; Previous] (Session w i false) = Some (Session w i false))
  ∧ (0 < i →
     run_session [Previous; Next] (Session w i false)
     = Some (Session w i false)).
Proof.
  intros Hi. unfold run_session. split.
  - intros Hnext. rewrite for_each_cons, session_step_next by done.
    cbn [mbind option_bind]. rewrite bool_decide_eq_false_2 by lia.
    rewrite for_each_cons, session_step_previous by lia.
    cbn [mbind option_bind for_each]. rewrite decide_True by lia.
    do 2 f_equal. lia.
  - intros Hprev. rewrite for_each_cons, session_step_previous by done.
    cbn [mbind option_bind]. rewrite decide_True by done.
    rewrite for_each_cons, session_step_next by lia.
    cbn [mbind option_bind for_each]. rewrite bool_decide_eq_false_2 by lia.
    do 2 f_equal. lia.
Qed.

Lemma next_and_previous_undo_each_other_witness :
  let w := build_workout_plan sample_catalog "Push Day" 45 "" ∅ "Light"
             (λ _, 0%Q) in
  0 ≤ 1 < Z.of_nat (length w)
  ∧ (1 + 1 < Z.of_nat (length w) →
     run_session [Next; Previous] (Session w 1 false)
     = Some (Session w 1 false))
  ∧ (0 < 1 →
     run_session [Previous; Next] (Session w 1 false)
     = Some (Session w 1 false)).
Proof.
  cbv zeta.
  assert (Hi : 0 ≤ 1 < Z.of_nat (length (build_workout_plan sample_catalog
                 "Push Day" 45 "" ∅ "Light" (λ _, 0%Q)))).
  { vm_compute. split; [discriminate | reflexivity]. }
  split; [exact Hi|].
  exact (next_and_previous_undo_each_other _ 1 Hi).
Defined.

(** X25. Renaming the columns is idempotent: a table whose columns already
    carry the names the loader produces keeps them, and renaming twice is
    renaming once. *)
Theorem rename_column_idempotent (c : string) :
  rename_column (rename_column c) = rename_column c.
Proof.
  assert (Hcases : rename_column c = "Exercise"
                   ∨ rename_column c = "Equipment Required"
                   ∨ rename_column c = "Muscle Group"
                   ∨ rename_column c = "Link"
                   ∨ (rename_column c = c
                      ∧ String.prefix "exercise" (lower c) = false
                      ∧ String.prefix "equipment" (lower c) = false
                      ∧ String.prefix "muscle" (lower c) = false
                      ∧ String.prefix "link" (lower c) = false)).
  { unfold rename_column. repeat case_match; tauto. }
  destruct Hcases as [->|[->|[->|[->|(Hc & H1 & H2 & H3 & H4)]]]];
    try reflexivity.
  rewrite Hc. unfold rename_column. by rewrite H1, H2, H3, H4.
Qed.

End PlannerMore.
